(** * ICP Prompt Tester: prompt compiler, response scorer, retry loop, store

    A shallow embedding of the business rules of the prompt tester:
    - [generatePrompt]        (components/AnswerCollector.tsx),
    - [extractInsights] and [calculateConfidence] (server.js),
    - the rate-limit retry loop of [POST /api/test] (server.js),
    - [createPrompt], [deletePrompt], [createTestResult] and the two
      analytics queries of server/database.js.

    JavaScript strings are modelled by [string] read as a sequence of
    code units below 256 (Latin-1 text); JavaScript numbers that carry
    fractions are IEEE binary64 values ([PrimFloat.float]); counters and
    lengths are [nat] or [Z].  SQLite tables are lists of rows in rowid
    order. *)

From Stdlib Require Import ZArith QArith Qabs Ascii String.
From Stdlib Require Import Floats.PrimFloat Floats.SpecFloat Floats.FloatOps Uint63.
From stdpp Require Import base decidable option list sorting gmap strings.

#[local] Set Warnings "-inexact-float".
#[local] Open Scope string_scope.
#[local] Open Scope list_scope.
#[local] Open Scope nat_scope.

(** ** JavaScript string primitives *)

Module JsString.

Definition LF : string := String (ascii_of_nat 10) "".

(** Code units that [String.prototype.trim] and the regexp class [\s]
    treat as white space, among those below 256: TAB, LF, VT, FF, CR,
    SPACE and NBSP. *)
Definition is_whitespace (c : ascii) : bool :=
  let n := nat_of_ascii c in
  ((9 <=? n) && (n <=? 13)) || (n =? 32) || (n =? 160).

(** The regexp class [\d]. *)
Definition is_digit (c : ascii) : bool :=
  let n := nat_of_ascii c in (48 <=? n) && (n <=? 57).

Fixpoint trimStart (s : string) : string :=
  match s with
  | String c s' => if is_whitespace c then trimStart s' else s
  | EmptyString => EmptyString
  end.

(** [trimEnd] drops the longest all-white-space suffix. *)
Fixpoint trimEnd (s : string) : string :=
  match s with
  | String c s' =>
      match trimEnd s' with
      | EmptyString => if is_whitespace c then EmptyString else String c EmptyString
      | t => String c t
      end
  | EmptyString => EmptyString
  end.

Definition trim (s : string) : string := trimEnd (trimStart s).

(** [s.startsWith(p)]. *)
Definition startsWith (s p : string) : bool := String.prefix p s.

(** [s.includes(sub)]: [sub] occurs at some position of [s]. *)
Fixpoint includes (s sub : string) : bool :=
  String.prefix sub s ||
  match s with
  | String _ s' => includes s' sub
  | EmptyString => false
  end.

(** [s.toLowerCase()] on code units below 256: A-Z and the Latin-1
    capitals U+00C0..U+00DE (except the multiplication sign U+00D7) move
    up by 32. *)
Definition lower_char (c : ascii) : ascii :=
  let n := nat_of_ascii c in
  if ((65 <=? n) && (n <=? 90)) || ((192 <=? n) && (n <=? 222) && negb (n =? 215))
  then ascii_of_nat (n + 32) else c.

Fixpoint toLowerCase (s : string) : string :=
  match s with
  | String c s' => String (lower_char c) (toLowerCase s')
  | EmptyString => EmptyString
  end.

(** [s.split(sep)] for a non-empty separator.  The result is never empty;
    its head is the piece being read.  [skip] counts the code units of a
    matched separator that are still to be consumed. *)
Fixpoint split_from (sep : string) (skip : nat) (s : string) : list string :=
  match s with
  | EmptyString => [EmptyString]
  | String c s' =>
      match skip with
      | S k => split_from sep k s'
      | O =>
          if String.prefix sep s
          then EmptyString :: split_from sep (String.length sep - 1) s'
          else match split_from sep 0 s' with
               | p :: ps => String c p :: ps
               | [] => [String c EmptyString]
               end
      end
  end.

Definition split (s sep : string) : list string := split_from sep 0 s.

(** [xs.join(sep)]. *)
Definition join (xs : list string) (sep : string) : string := String.concat sep xs.

(** JavaScript truthiness of a string: every string but the empty one. *)
Definition truthy (s : string) : bool :=
  match s with EmptyString => false | _ => true end.

End JsString.

Import JsString.

(** ** Response scorer (server.js) *)

Module Scorer.

(** The regexp [/^\d+\./]: one or more digits, then a dot; the result is
    what follows the dot. *)
Fixpoint after_digits (s : string) : option string :=
  match s with
  | String c s' =>
      if is_digit c then after_digits s'
      else if Ascii.eqb c "." then Some s' else None
  | EmptyString => None
  end.

Definition match_numbered (s : string) : option string :=
  match s with
  | String c s' => if is_digit c then after_digits s' else None
  | EmptyString => None
  end.

Definition test_numbered (s : string) : bool :=
  match match_numbered s with Some _ => true | None => false end.

(** [s.replace(/^[-*]\s*|^\d+\.\s*/, '')]: the first alternative that
    matches at position 0 is removed together with the white space after
    it; a string that matches neither is returned as it is. *)
Definition strip_marker (s : string) : string :=
  match s with
  | String c s' =>
      if Ascii.eqb c "-" || Ascii.eqb c "*" then trimStart s'
      else match match_numbered s with
           | Some rest => trimStart rest
           | None => s
           end
  | EmptyString => EmptyString
  end.

Definition is_marked (trimmed : string) : bool :=
  startsWith trimmed "-" || startsWith trimmed "*" || test_numbered trimmed.

(** The body of [lines.forEach]: [insights.push] appends at the end. *)
Definition visit_line (insights : list string) (line : string) : list string :=
  let trimmed := trim line in
  if is_marked trimmed then insights ++ [strip_marker trimmed] else insights.

Definition extractInsights (response : string) : list string :=
  let lines := filter (fun line => truthy (trim line) = true) (split response LF) in
  let insights := foldl visit_line [] lines in
  if length insights =? 0 then
    let paragraphs :=
      filter (fun p => 50 < String.length (trim p)) (split response (LF +:+ LF)) in
    take 5 paragraphs
  else take 5 insights.

Definition analyticalKeywords : list string :=
  ["analysis"; "insight"; "pattern"; "recommendation"; "conclusion"].

Definition of_nat (n : nat) : float := PrimFloat.of_uint63 (Uint63.of_Z (Z.of_nat n)).

(** [Math.min] on two numbers neither of which is NaN or a zero. *)
Definition Math_min (x y : float) : float := if PrimFloat.ltb y x then y else x.

Definition calculateConfidence (response : string) : float :=
  let confidence := 0.5%float in
  let confidence :=
    if 500 <? String.length response then (confidence + 0.1)%float else confidence in
  let confidence :=
    if 1000 <? String.length response then (confidence + 0.1)%float else confidence in
  let confidence :=
    if includes response LF || includes response "-" || includes response "1."
    then (confidence + 0.1)%float else confidence in
  let foundKeywords :=
    filter (fun keyword => includes (toLowerCase response) keyword = true)
           analyticalKeywords in
  let confidence := (confidence + of_nat (length foundKeywords) * 0.05)%float in
  Math_min confidence 0.95%float.

End Scorer.

Import Scorer.

(** ** Prompt compiler (components/AnswerCollector.tsx) *)

Module Compiler.

Inductive QuestionType := QText | QSelect | QMultiselect.

Record Question := {
  q_id : string;
  q_text : string;
  q_type : QuestionType;
  q_required : bool;
  q_hardFilter : bool;
  q_options : option (list string);
  q_tags : list string
}.

(** An answer is [string | string[]]. *)
Inductive Answer :=
| AText (s : string)
| AList (xs : list string).

(** [answer && answer !== '']: an absent answer is [undefined]; an array
    is truthy whatever its length, and never strictly equal to a string. *)
Definition answer_given (answer : option Answer) : bool :=
  match answer with
  | None => false
  | Some (AText s) => truthy s && negb (String.eqb s "")
  | Some (AList _) => true
  end.

(** [Array.isArray(answer) ? answer.join(', ') : answer]. *)
Definition render (answer : Answer) : string :=
  match answer with
  | AList xs => join xs ", "
  | AText s => s
  end.

(** The body of [questions.forEach]; the result is the new [prompt]. *)
Definition visit_question (excludedQuestions : gset string)
    (answers : gmap string Answer) (prompt : string) (question : Question) : string :=
  if decide (q_id question ∈ excludedQuestions) then prompt
  else
    let answer := answers !! q_id question in
    if answer_given answer then
      match answer with
      | Some a => prompt +:+ ("- " +:+ q_text question +:+ ": " +:+ render a +:+ LF)
      | None => prompt
      end
    else prompt.

Definition preamble (promptName : string) : string :=
  ("Custom Analysis Prompt" +:+ LF +:+ LF +:+ "Name: " +:+ promptName +:+ LF +:+ LF
     +:+ "Context:" +:+ LF)
  +:+ ("All answers define our customers ICP for webshop matching" +:+ LF).

Definition instructions : string :=
  LF +:+ "Instructions: Analyze JSON data with focus on patterns and recommendations."
     +:+ LF.

Definition generatePrompt (promptName : string) (questions : list Question)
    (excludedQuestions : gset string) (answers : gmap string Answer) : string :=
  let prompt := preamble promptName in
  let prompt := foldl (visit_question excludedQuestions answers) prompt questions in
  prompt +:+ instructions.

End Compiler.

Import Compiler.

(** ** The retry loop of [POST /api/test] (server.js) *)

Module Runner.

(** A thrown value: the [status] and [message] properties the handlers read. *)
Record JsError := { status : option Z; message : string }.

(** What one call of [openai.chat.completions.create] does. *)
Inductive Outcome :=
| Completed (content : string)
| Rejected (error : JsError).

(** The upstream: the outcome of the call number [n] (from 0). *)
Definition Upstream := nat -> Outcome.

Inductive Event :=
| Request
| Sleep (ms : Z).

(** A JavaScript variable binding with the keyword that declared it. *)
Inductive DeclKind := Let | Const.

Record Binding := { kind : DeclKind; value : Z }.

Definition TypeError_const : JsError :=
  {| status := None; message := "Assignment to constant variable." |}.

(** [x *= k]: writing to a [const] binding throws a [TypeError]. *)
Definition mul_assign (x : Binding) (k : Z) : JsError + Binding :=
  match kind x with
  | Const => inl TypeError_const
  | Let => inr {| kind := Let; value := (value x * k)%Z |}
  end.

Inductive Completion :=
| Returned (content : string)
| Thrown (error : JsError).

Definition maxRetries : nat := 3.

(** Reading [completion.choices] when the loop ended without a completion. *)
Definition undefined_completion : JsError :=
  {| status := None;
     message := "Cannot read properties of undefined (reading 'choices')" |}.

(** The [while (retryCount < maxRetries)] loop.  [calls] counts the
    requests made so far, [trace] records requests and sleeps in order.
    [fuel] bounds the iterations; [None] means the fuel ran out. *)
Fixpoint retry_loop (fuel : nat) (upstream : Upstream) (calls retryCount : nat)
    (retryDelay : Binding) (trace : list Event) : option (Completion * list Event) :=
  match fuel with
  | O => None
  | S fuel' =>
      if retryCount <? maxRetries then
        match upstream calls with
        | Completed content => Some (Returned content, trace ++ [Request])
        | Rejected error =>
            let trace := trace ++ [Request] in
            if bool_decide (status error = Some 429%Z) then
              let retryCount := S retryCount in
              if retryCount <? maxRetries then
                let trace := trace ++ [Sleep (value retryDelay)] in
                match mul_assign retryDelay 2 with
                | inl type_error => Some (Thrown type_error, trace)
                | inr retryDelay =>
                    retry_loop fuel' upstream (S calls) retryCount retryDelay trace
                end
              else Some (Thrown error, trace)
            else Some (Thrown error, trace)
        end
      else Some (Thrown undefined_completion, trace)
  end.

(** The loop as the handler starts it. *)
Definition run_retries (decl : DeclKind) (upstream : Upstream)
  : option (Completion * list Event) :=
  retry_loop (S maxRetries) upstream 0 0 {| kind := decl; value := 2000 |} [].

(** [const retryDelay = 2000] is what the source declares. *)
Definition call_with_retries (upstream : Upstream) : option (Completion * list Event) :=
  run_retries Const upstream.

(** The [catch] of the handler: status code and error message sent back. *)
Definition error_response (error : JsError) : Z * string :=
  if bool_decide (status error = Some 401%Z) || includes (message error) "UNAUTHORIZED" then
    (401%Z, "Invalid OpenAI API key. Please check your API key configuration.")
  else if bool_decide (status error = Some 429%Z) || includes (message error) "rate limit" then
    (429%Z, "OpenAI API rate limit exceeded. Please try again in a few minutes.")
  else if includes (message error) "insufficient_quota" then
    (402%Z, "OpenAI API quota exceeded. Please check your billing.")
  else if includes (message error) "invalid_api_key" then
    (401%Z, "Invalid OpenAI API key format. Please check your API key.")
  else (500%Z, "Failed to test prompt with ChatGPT").

End Runner.

Import Runner.

(** ** The SQLite store (server/database.js) *)

Module Store.

(** A row of [prompts]; the JSON text columns hold the value they encode. *)
Record PromptRow := {
  p_id : string;
  p_name : string;
  base_prompt_id : option string;
  version : Z;
  p_questions : list Question;
  p_answers : gmap string Answer;
  generated_prompt : string;
  p_tags : list string
}.

(** A row of [test_results]. *)
Record TestResultRow := {
  tr_id : string;
  prompt_id : string;
  prompt_name : string;
  prompt_version : Z;
  json_data : string;
  json_type : string;
  result_summary : string;
  result_insights : list string;
  confidence : float;
  processing_time : Z;
  chatgpt_response : string;
  model : string;
  tokens_used : Z;
  cost_usd : float;
  success : Z;
  error_message : option string;
  timestamp : string
}.

(** The three tables with a foreign key to [prompts(id)]; of
    [prompt_analytics] only the referencing column is kept. *)
Record Db := {
  prompts : list PromptRow;
  test_results : list TestResultRow;
  prompt_analytics : list string
}.

Definition empty_db : Db :=
  {| prompts := []; test_results := []; prompt_analytics := [] |}.

Definition FOREIGN_KEY_failed : JsError :=
  {| status := None; message := "SQLITE_CONSTRAINT: FOREIGN KEY constraint failed" |}.

Definition UNIQUE_failed (column : string) : JsError :=
  {| status := None;
     message := "SQLITE_CONSTRAINT: UNIQUE constraint failed: " +:+ column |}.

(** [x || dflt] on an optional string: [undefined], [null] and the empty
    string are falsy. *)
Definition or_string (x : option string) (dflt : string) : string :=
  match x with
  | Some s => if truthy s then s else dflt
  | None => dflt
  end.

(** *** Prompts *)

Record PromptInput := {
  in_id : string;
  in_name : string;
  in_questions : list Question;
  in_answers : gmap string Answer;
  in_generatedPrompt : string;
  in_tags : option (list string)
}.

Record CreatedPrompt := {
  c_id : string;
  c_name : string;
  c_questions : list Question;
  c_answers : gmap string Answer;
  c_generatedPrompt : string;
  c_tags : list string;
  c_version : Z;
  c_basePromptId : option string
}.

(** [ORDER BY version DESC LIMIT 1]: a row of greatest version.  SQL leaves
    the choice among rows of equal version open; the earliest row is taken
    here. *)
Fixpoint max_version_row (rows : list PromptRow) : option PromptRow :=
  match rows with
  | [] => None
  | r :: rest =>
      match max_version_row rest with
      | Some m => if (version r <? version m)%Z then Some m else Some r
      | None => Some r
      end
  end.

(** [SELECT id, version FROM prompts WHERE name = ? ORDER BY version DESC
    LIMIT 1]. *)
Definition latest_named (name : string) (rows : list PromptRow) : option PromptRow :=
  max_version_row (filter (fun r => p_name r = name) rows).

Definition createPrompt (prompt : PromptInput) (db : Db)
  : (JsError + CreatedPrompt) * Db :=
  let tags := default [] (in_tags prompt) in
  let existingPrompt := latest_named (in_name prompt) (prompts db) in
  let basePromptId := p_id <$> existingPrompt in
  let version :=
    match existingPrompt with
    | Some e => (version e + 1)%Z
    | None => 1%Z
    end in
  if bool_decide (in_id prompt ∈ map p_id (prompts db)) then
    (inl (UNIQUE_failed "prompts.id"), db)
  else
    (inr {| c_id := in_id prompt; c_name := in_name prompt;
            c_questions := in_questions prompt; c_answers := in_answers prompt;
            c_generatedPrompt := in_generatedPrompt prompt; c_tags := tags;
            c_version := version; c_basePromptId := basePromptId |},
     {| prompts := prompts db ++
          [{| p_id := in_id prompt; p_name := in_name prompt;
              base_prompt_id := basePromptId; version := version;
              p_questions := in_questions prompt; p_answers := in_answers prompt;
              generated_prompt := in_generatedPrompt prompt; p_tags := tags |}];
        test_results := test_results db;
        prompt_analytics := prompt_analytics db |}).

(** Creating prompts one after the other, each on the state the previous
    one left. *)
Fixpoint create_all (inputs : list PromptInput) (db : Db)
  : list (JsError + CreatedPrompt) * Db :=
  match inputs with
  | [] => ([], db)
  | prompt :: rest =>
      let '(r, db1) := createPrompt prompt db in
      let '(rs, db2) := create_all rest db1 in
      (r :: rs, db2)
  end.

(** [clonePrompt]: the copy is version 1 and refers to the original;
    [newId] is the fresh uuid, [newName] the optional name. *)
Definition clonePrompt (newId originalId : string) (newName : option string) (db : Db)
  : (JsError + PromptRow) * Db :=
  match filter (fun r => p_id r = originalId) (prompts db) with
  | [] => (inl {| status := None; message := "Original prompt not found" |}, db)
  | row :: _ =>
      let cloned :=
        {| p_id := newId; p_name := or_string newName (p_name row +:+ " (Copy)");
           base_prompt_id := Some (p_id row); version := 1;
           p_questions := p_questions row; p_answers := p_answers row;
           generated_prompt := generated_prompt row; p_tags := [] |} in
      if bool_decide (newId ∈ map p_id (prompts db)) then
        (inl (UNIQUE_failed "prompts.id"), db)
      else
        (inr cloned,
         {| prompts := prompts db ++ [cloned];
            test_results := test_results db;
            prompt_analytics := prompt_analytics db |})
  end.

(** [DELETE FROM test_results WHERE prompt_id = ?].  No table refers to
    [test_results], so the statement cannot fail. *)
Definition delete_test_results (id : string) (db : Db) : Db :=
  {| prompts := prompts db;
     test_results := filter (fun tr => prompt_id tr <> id) (test_results db);
     prompt_analytics := prompt_analytics db |}.

(** Rows that still refer to the prompt [id] once its own row is gone
    ([PRAGMA foreign_keys = ON], every key with the default NO ACTION). *)
Definition still_referenced (id : string) (db : Db) : bool :=
  bool_decide (Exists (fun r => p_id r <> id /\ base_prompt_id r = Some id) (prompts db))
  || bool_decide (Exists (fun tr => prompt_id tr = id) (test_results db))
  || bool_decide (id ∈ prompt_analytics db).

(** [DELETE FROM prompts WHERE id = ?]. *)
Definition delete_prompt_row (id : string) (db : Db) : (JsError + unit) * Db :=
  if bool_decide (id ∈ map p_id (prompts db)) && still_referenced id db then
    (inl FOREIGN_KEY_failed, db)
  else
    (inr tt,
     {| prompts := filter (fun r => p_id r <> id) (prompts db);
        test_results := test_results db;
        prompt_analytics := prompt_analytics db |}).

(** [deletePrompt]: two statements, each committed on its own. *)
Definition deletePrompt (id : string) (db : Db) : (JsError + unit) * Db :=
  let db1 := delete_test_results id db in
  delete_prompt_row id db1.

(** An HTTP response: status code and the [error] text ([None] for the
    success body). *)
Record Response := { code : Z; error_text : option string }.

(** [app.delete('/api/prompts/:id')]. *)
Definition delete_prompt_endpoint (id : string) (db : Db) : Response * Db :=
  match deletePrompt id db with
  | (inr _, db') => ({| code := 200; error_text := None |}, db')
  | (inl error, db') =>
      if includes (message error) "FOREIGN KEY constraint failed" then
        ({| code := 400;
            error_text := Some "Cannot delete prompt: It has dependent data (test results or versioned prompts). Please delete the dependent data first." |},
         db')
      else ({| code := 500; error_text := Some "Failed to delete prompt" |}, db')
  end.

(** *** Test results *)

(** The uploaded payload: its [type] property and its JSON text. *)
Record JsonData := { jd_type : option string; jd_json : string }.

Record ResultInput := {
  r_summary : string;
  r_insights : option (list string);
  r_confidence : float;
  r_processingTime : Z;
  r_chatGPTResponse : string;
  r_model : string
}.

Record TestResultInput := {
  t_id : string;
  t_promptId : string;
  t_promptName : string;
  t_promptVersion : option Z;
  t_jsonData : JsonData;
  t_result : ResultInput;
  t_tokensUsed : option Z;
  t_costUsd : option float;
  t_timestamp : option string
}.

(** [createTestResult]; [now] is [new Date().toISOString()].  The INSERT
    names fifteen columns; [success] and [error_message] are not among
    them and take the defaults of the schema, [1] and [NULL]. *)
Definition createTestResult (now : string) (testResult : TestResultInput) (db : Db)
  : (JsError + TestResultInput) * Db :=
  let result := t_result testResult in
  let row :=
    {| tr_id := t_id testResult;
       prompt_id := t_promptId testResult;
       prompt_name := t_promptName testResult;
       prompt_version := default 1%Z (t_promptVersion testResult);
       json_data := jd_json (t_jsonData testResult);
       json_type := or_string (jd_type (t_jsonData testResult)) "json";
       result_summary := r_summary result;
       result_insights := default [] (r_insights result);
       confidence := r_confidence result;
       processing_time := r_processingTime result;
       chatgpt_response := r_chatGPTResponse result;
       model := r_model result;
       tokens_used := default 0%Z (t_tokensUsed testResult);
       cost_usd := default 0%float (t_costUsd testResult);
       success := 1;
       error_message := None;
       timestamp := or_string (t_timestamp testResult) now |} in
  if bool_decide (t_id testResult ∈ map tr_id (test_results db)) then
    (inl (UNIQUE_failed "test_results.id"), db)
  else if bool_decide (t_promptId testResult ∈ map p_id (prompts db)) then
    (inr testResult,
     {| prompts := prompts db;
        test_results := test_results db ++ [row];
        prompt_analytics := prompt_analytics db |})
  else (inl FOREIGN_KEY_failed, db).

(** *** Analytics *)

(** [SUM(CASE WHEN success = 1 THEN 1 ELSE 0 END)]. *)
Definition succeeded (rows : list TestResultRow) : nat :=
  length (filter (fun tr => success tr = 1%Z) rows).

(** [ones * 100.0 / count] as an exact rational; SQLite yields NULL on a
    division by zero. *)
Definition percentage (ones count : nat) : option Q :=
  if count =? 0 then None
  else Some (inject_Z (Z.of_nat ones) * 100 / inject_Z (Z.of_nat count))%Q.

Definition sum_tokens (rows : list TestResultRow) : Z :=
  foldr (fun tr acc => (tokens_used tr + acc)%Z) 0%Z rows.

(** Of a result row of [getPromptAnalytics]: the group key, the count, the
    success rate and the token sum. *)
Record DailyStats := {
  d_date : option string;
  d_total_tests : nat;
  d_success_rate : option Q;
  d_total_tokens : Z
}.

(** Of a result row of [getOverallAnalytics]. *)
Record PromptStats := {
  o_prompt_id : string;
  o_prompt_name : string;
  o_version : Z;
  o_total_tests : nat;
  o_success_rate : option Q;
  o_total_tokens : Z
}.

(** Descending order of TEXT values, NULL last. *)
Definition date_geb (a b : option string) : bool :=
  match a, b with
  | _, None => true
  | None, Some _ => false
  | Some x, Some y => String.leb y x
  end.

Definition date_ge (a b : option string) : Prop := date_geb a b = true.

#[global] Instance date_ge_dec (a b : option string) : Decision (date_ge a b) :=
  bool_eq_dec (date_geb a b) true.

(** [DATE(timestamp) >= ?] and [<= ?]: a NULL date satisfies neither. *)
Definition on_or_after (d : option string) (bound : string) : bool :=
  match d with Some x => String.leb bound x | None => false end.

Definition on_or_before (d : option string) (bound : string) : bool :=
  match d with Some x => String.leb x bound | None => false end.

(** A bound that is [null], [undefined] or the empty string adds no
    condition to the query. *)
Definition bounded (test : string -> bool) (bound : option string) : bool :=
  match bound with
  | Some b => if truthy b then test b else true
  | None => true
  end.

Section Analytics.

(** SQLite's [DATE()] on a timestamp text; NULL when it is not a date. *)
Variable DATE : string -> option string.

Definition in_range (promptId : string) (startDate endDate : option string)
    (tr : TestResultRow) : bool :=
  bool_decide (prompt_id tr = promptId)
  && bounded (on_or_after (DATE (timestamp tr))) startDate
  && bounded (on_or_before (DATE (timestamp tr))) endDate.

Definition daily_stats (rows : list TestResultRow) (date : option string) : DailyStats :=
  let group := filter (fun tr => DATE (timestamp tr) = date) rows in
  {| d_date := date;
     d_total_tests := length group;
     d_success_rate := percentage (succeeded group) (length group);
     d_total_tokens := sum_tokens group |}.

Definition getPromptAnalytics (promptId : string) (startDate endDate : option string)
    (db : Db) : list DailyStats :=
  let rows :=
    filter (fun tr => in_range promptId startDate endDate tr = true) (test_results db) in
  let dates := remove_dups (map (fun tr => DATE (timestamp tr)) rows) in
  map (daily_stats rows) (merge_sort date_ge dates).

End Analytics.

Definition prompt_stats (db : Db) (p : PromptRow) : PromptStats :=
  let joined := filter (fun tr => prompt_id tr = p_id p) (test_results db) in
  {| o_prompt_id := p_id p;
     o_prompt_name := p_name p;
     o_version := version p;
     o_total_tests := length joined;
     o_success_rate := percentage (succeeded joined) (length joined);
     o_total_tokens := sum_tokens joined |}.

(** [ORDER BY total_tests DESC]. *)
Definition more_tests (a b : PromptStats) : Prop := o_total_tests b <= o_total_tests a.

#[global] Instance more_tests_dec (a b : PromptStats) : Decision (more_tests a b) :=
  le_dec (o_total_tests b) (o_total_tests a).

Definition getOverallAnalytics (db : Db) : list PromptStats :=
  merge_sort more_tests (map (prompt_stats db) (prompts db)).

(** The states the store can be in: what the write operations on the three
    tables produce from the empty database, whether they succeed or not. *)
Inductive reachable : Db -> Prop :=
| reach_empty : reachable empty_db
| reach_createPrompt prompt db :
    reachable db -> reachable (createPrompt prompt db).2
| reach_clonePrompt newId originalId newName db :
    reachable db -> reachable (clonePrompt newId originalId newName db).2
| reach_deletePrompt id db :
    reachable db -> reachable (deletePrompt id db).2
| reach_createTestResult now testResult db :
    reachable db -> reachable (createTestResult now testResult db).2.

End Store.

Import Store.

(** ** The wizard state of the prompt builder (components/AnswerCollector.tsx) *)

Module Wizard.

(** [toggleQuestionExclusion]: a copy of the set with the id removed when
    it was there, added when it was not. *)
Definition toggleQuestionExclusion (questionId : string) (prev : gset string)
  : gset string :=
  if decide (questionId ∈ prev) then prev ∖ {[ questionId ]}
  else prev ∪ {[ questionId ]}.

(** [handleAnswerChange]: [{...prev, [questionId]: value}]. *)
Definition handleAnswerChange (questionId : string) (value : Answer)
    (prev : gmap string Answer) : gmap string Answer :=
  <[ questionId := value ]> prev.

(** [Array.isArray(answers[id]) ? answers[id] : []]. *)
Definition current_selection (answers : gmap string Answer) (questionId : string)
  : list string :=
  match answers !! questionId with
  | Some (AList xs) => xs
  | _ => []
  end.

(** The [onChange] of a checkbox of a multiple-choice question. *)
Definition onCheckboxChange (questionId option : string) (checked : bool)
    (answers : gmap string Answer) : gmap string Answer :=
  let current := current_selection answers questionId in
  if checked then handleAnswerChange questionId (AList (current ++ [option])) answers
  else handleAnswerChange questionId
         (AList (filter (fun item => item <> option) current)) answers.

(** The tags of the prompt and the text of the tag input. *)
Record TagState := { promptTags : list string; tagInput : string }.

Definition addTag (st : TagState) : TagState :=
  let trimmedTag := trim (tagInput st) in
  if truthy trimmedTag && negb (bool_decide (trimmedTag ∈ promptTags st)) then
    {| promptTags := promptTags st ++ [trimmedTag]; tagInput := "" |}
  else st.

Definition removeTag (tagToRemove : string) (st : TagState) : TagState :=
  {| promptTags := filter (fun tag => tag <> tagToRemove) (promptTags st);
     tagInput := tagInput st |}.

Definition setTagInput (text : string) (st : TagState) : TagState :=
  {| promptTags := promptTags st; tagInput := text |}.

(** [nextStep] and [prevStep] on [currentStep]. *)
Definition nextStep (currentStep : Z) : Z :=
  if (currentStep <? 4)%Z then (currentStep + 1)%Z else currentStep.

Definition prevStep (currentStep : Z) : Z :=
  if (1 <? currentStep)%Z then (currentStep - 1)%Z else currentStep.

End Wizard.

Import Wizard.

(** ** Reads of the store and the other endpoints (server/database.js, server.js) *)

Module Endpoints.

(** [getPrompt]: the row with that id, [null] when there is none. *)
Definition getPrompt (id : string) (db : Db) : option PromptRow :=
  head (filter (fun r => p_id r = id) (prompts db)).

(** [ORDER BY version DESC]. *)
Definition version_ge (a b : PromptRow) : Prop := (version b <= version a)%Z.

#[global] Instance version_ge_dec (a b : PromptRow) : Decision (version_ge a b) :=
  Z_le_dec (version b) (version a).


(** [ORDER BY timestamp DESC], a comparison of TEXT values. *)
Definition later (a b : TestResultRow) : Prop :=
  String.leb (timestamp b) (timestamp a) = true.

#[global] Instance later_dec (a b : TestResultRow) : Decision (later a b) :=
  bool_eq_dec (String.leb (timestamp b) (timestamp a)) true.

(** [getTestResultsForPrompt]: the rows, which the caller spreads into the
    objects it returns. *)
Definition getTestResultsForPrompt (promptId : string) (db : Db) : list TestResultRow :=
  merge_sort later (filter (fun tr => prompt_id tr = promptId) (test_results db)).

(** The replies of the endpoints below: a JSON body with the created
    object, or a status code with an error text and, for [/api/test], the
    [details]. *)
Inductive Reply (A : Type) :=
| Json (body : A)
| Error (code : Z) (error : string) (details : option string).

Arguments Json {A} body.
Arguments Error {A} code error details.

(** [app.get('/api/prompts/:id')]. *)
Definition get_prompt_endpoint (id : string) (db : Db) : Reply PromptRow :=
  match getPrompt id db with
  | Some prompt => Json prompt
  | None => Error 404 "Prompt not found" None
  end.

(** [app.post('/api/prompts/:id/clone')]; [uuid] is the value of
    [uuidv4()], [name] the optional name of the request body.  The copy is
    made with [createPrompt] and carries no tags. *)
Definition clone_endpoint (uuid id : string) (name : option string) (db : Db)
  : Reply CreatedPrompt * Db :=
  match getPrompt id db with
  | None => (Error 404 "Prompt not found" None, db)
  | Some originalPrompt =>
      let clonedPrompt :=
        {| in_id := uuid;
           in_name := or_string name (p_name originalPrompt +:+ " (Copy)");
           in_questions := p_questions originalPrompt;
           in_answers := p_answers originalPrompt;
           in_generatedPrompt := generated_prompt originalPrompt;
           in_tags := None |} in
      match createPrompt clonedPrompt db with
      | (inr createdPrompt, db') => (Json createdPrompt, db')
      | (inl _, db') => (Error 500 "Failed to clone prompt" None, db')
      end
  end.

(** The environment and the request body of [/api/test]. *)
Record Env := { OPENAI_MODEL : option string }.

(** [jsonData]: its [type] and [content] properties and its two JSON
    texts, [JSON.stringify(jsonData, null, 2)] and [JSON.stringify(jsonData)]. *)
Record Payload := {
  pl_type : option string;
  pl_content : string;
  pl_pretty : string;
  pl_compact : string
}.

(** The argument of [openai.chat.completions.create]. *)
Record ChatRequest := {
  cr_model : string;
  cr_system : string;
  cr_user : string;
  cr_max_tokens : Z;
  cr_temperature : float
}.

Definition is_text (jsonData : Payload) : bool :=
  bool_decide (pl_type jsonData = Some "text").

Definition userMessage (prompt : PromptRow) (jsonData : Payload) : string :=
  let dataContent := if is_text jsonData then pl_content jsonData else pl_pretty jsonData in
  generated_prompt prompt +:+ LF +:+ LF
  +:+ "Here is the " +:+ (if is_text jsonData then "text" else "JSON")
  +:+ " data to analyze:" +:+ LF
  +:+ "```" +:+ (if is_text jsonData then "text" else "json") +:+ LF
  +:+ dataContent +:+ LF
  +:+ "```" +:+ LF +:+ LF
  +:+ "Please provide a comprehensive analysis following the instructions in the prompt.".

Definition chat_request (env : Env) (prompt : PromptRow) (jsonData : Payload)
  : ChatRequest :=
  {| cr_model := or_string (OPENAI_MODEL env) "gpt-4";
     cr_system := "You are a helpful AI assistant specialized in JSON data analysis. Follow the user's instructions carefully and provide structured, insightful analysis.";
     cr_user := userMessage prompt jsonData;
     cr_max_tokens := 1000;
     cr_temperature := 0.7 |}.

(** The [testResult] object built from a completion. *)
Definition test_result (env : Env) (uuid now : string) (processingTime : Z)
    (prompt : PromptRow) (promptId : string) (jsonData : Payload)
    (chatGPTResponse : string) : TestResultInput :=
  {| t_id := uuid;
     t_promptId := promptId;
     t_promptName := p_name prompt;
     t_promptVersion := Some (if (version prompt =? 0)%Z then 1%Z else version prompt);
     t_jsonData := {| jd_type := pl_type jsonData; jd_json := pl_compact jsonData |};
     t_result :=
       {| r_summary := "Analysis of JSON data using custom prompt: " +:+ p_name prompt;
          r_insights := Some (extractInsights chatGPTResponse);
          r_confidence := calculateConfidence chatGPTResponse;
          r_processingTime := processingTime;
          r_chatGPTResponse := chatGPTResponse;
          r_model := or_string (OPENAI_MODEL env) "gpt-3.5-turbo" |};
     t_tokensUsed := None;
     t_costUsd := None;
     t_timestamp := Some now |}.

(** The [catch] of the handler as a reply. *)
Definition error_reply {A : Type} (error : JsError) : Reply A :=
  let '(statusCode, errorMessage) := error_response error in
  Error statusCode errorMessage (Some (message error)).

(** [app.post('/api/test')].  [api] is the completion service, which sees
    the request; [uuid], [now] and [processingTime] are the values of
    [uuidv4()], [new Date().toISOString()] and [Date.now() - startTime]. *)
Definition test_endpoint (env : Env) (uuid now : string) (processingTime : Z)
    (api : ChatRequest -> Upstream) (promptId : string) (jsonData : Payload) (db : Db)
  : Reply TestResultInput * Db :=
  match getPrompt promptId db with
  | None => (Error 404 "Prompt not found" None, db)
  | Some prompt =>
      match call_with_retries (api (chat_request env prompt jsonData)) with
      | Some (Returned chatGPTResponse, _) =>
          let testResult :=
            test_result env uuid now processingTime prompt promptId jsonData
                        chatGPTResponse in
          match createTestResult now testResult db with
          | (inr _, db') => (Json testResult, db')
          | (inl error, db') => (error_reply error, db')
          end
      | Some (Thrown error, _) => (error_reply error, db)
      | None => (error_reply undefined_completion, db)
      end
  end.


End Endpoints.

Import Endpoints.

(** ** The questions table and its endpoints (server/database.js, server.js) *)

Module Questions.

(** A row of [questions]: [required] and [hardFilter] are INTEGER columns,
    [options] is a JSON text that may be NULL, [tags] a JSON text. *)
Record QuestionRow := {
  qr_id : string;
  qr_text : string;
  qr_type : string;
  qr_required : Z;
  qr_hardFilter : Z;
  qr_options : option (list string);
  qr_tags : list string;
  qr_created_at : string
}.

(** A flag as JavaScript holds it after [x || 0]: [true], or the number 0. *)
Inductive JsFlag :=
| JsTrue
| JsZero.

Definition or_zero (x : option bool) : JsFlag :=
  match x with
  | Some true => JsTrue
  | _ => JsZero
  end.

(** The INTEGER that sqlite3 binds for the flag. *)
Definition bind_flag (x : JsFlag) : Z :=
  match x with
  | JsTrue => 1
  | JsZero => 0
  end.

(** The argument of [createQuestion]. *)
Record QuestionInput := {
  qi_id : string;
  qi_text : option string;
  qi_type : option string;
  qi_required : option bool;
  qi_hardFilter : option bool;
  qi_options : option (list string);
  qi_tags : option (list string)
}.

(** What [createQuestion] resolves to. *)
Record CreatedQuestion := {
  cq_id : string;
  cq_text : string;
  cq_type : string;
  cq_required : JsFlag;
  cq_hardFilter : JsFlag;
  cq_options : list string;
  cq_tags : list string
}.

Definition NOT_NULL_failed (column : string) : JsError :=
  {| status := None;
     message := "SQLITE_CONSTRAINT: NOT NULL constraint failed: " +:+ column |}.

(** [createQuestion]; [now] is the CURRENT_TIMESTAMP of the insertion.  An
    [undefined] text is bound as NULL, which the column refuses. *)
Definition createQuestion (now : string) (question : QuestionInput)
    (table : list QuestionRow) : (JsError + CreatedQuestion) * list QuestionRow :=
  let tags := default [] (qi_tags question) in
  match qi_text question with
  | None => (inl (NOT_NULL_failed "questions.text"), table)
  | Some text =>
      if bool_decide (qi_id question ∈ map qr_id table) then
        (inl (UNIQUE_failed "questions.id"), table)
      else
        (inr {| cq_id := qi_id question; cq_text := text;
                cq_type := or_string (qi_type question) "text";
                cq_required := or_zero (qi_required question);
                cq_hardFilter := or_zero (qi_hardFilter question);
                cq_options := default [] (qi_options question);
                cq_tags := tags |},
         table ++
           [{| qr_id := qi_id question; qr_text := text;
               qr_type := or_string (qi_type question) "text";
               qr_required := bind_flag (or_zero (qi_required question));
               qr_hardFilter := bind_flag (or_zero (qi_hardFilter question));
               qr_options := Some (default [] (qi_options question));
               qr_tags := tags;
               qr_created_at := now |}])
  end.

(** The body of [POST /api/questions]: the properties the handler reads,
    and two that it does not. *)
Record QuestionBody := {
  qb_text : option string;
  qb_type : option string;
  qb_required : option bool;
  qb_options : option (list string);
  qb_hardFilter : option bool;
  qb_tags : option (list string)
}.

(** [app.post('/api/questions')]; [uuid] is the value of [uuidv4()]. *)
Definition create_question_endpoint (uuid now : string) (body : QuestionBody)
    (table : list QuestionRow) : Reply CreatedQuestion * list QuestionRow :=
  let question :=
    {| qi_id := uuid;
       qi_text := qb_text body;
       qi_type := Some (or_string (qb_type body) "text");
       qi_required := Some (match qb_required body with Some true => true | _ => false end);
       qi_hardFilter := None;
       qi_options := qb_options body;
       qi_tags := None |} in
  match createQuestion now question table with
  | (inr createdQuestion, table') => (Json createdQuestion, table')
  | (inl _, table') => (Error 500 "Failed to create question" None, table')
  end.

(** An object returned by [getAllQuestions]. *)
Record ListedQuestion := {
  lq_id : string;
  lq_text : string;
  lq_type : string;
  lq_required : Z;
  lq_hardFilter : bool;
  lq_options : list string;
  lq_tags : list string;
  lq_created_at : string
}.

Definition listed (row : QuestionRow) : ListedQuestion :=
  {| lq_id := qr_id row; lq_text := qr_text row; lq_type := qr_type row;
     lq_required := qr_required row;
     lq_hardFilter := negb (qr_hardFilter row =? 0)%Z;
     lq_options := default [] (qr_options row);
     lq_tags := qr_tags row;
     lq_created_at := qr_created_at row |}.

(** [ORDER BY created_at DESC]; the order of rows of one timestamp is not
    fixed by the query, the stable sort picks one. *)
Definition created_later (a b : QuestionRow) : Prop :=
  String.leb (qr_created_at b) (qr_created_at a) = true.

#[global] Instance created_later_dec (a b : QuestionRow) : Decision (created_later a b) :=
  bool_eq_dec (String.leb (qr_created_at b) (qr_created_at a)) true.

Definition getAllQuestions (table : list QuestionRow) : list ListedQuestion :=
  map listed (merge_sort created_later table).

(** One property of the [updates] object of [updateQuestion], for the
    objects a client of the form sends: one of the six editable columns
    with a value of its type ([None] is [null] or [undefined]).  Other keys
    are spliced into the SQL text and are not modelled. *)
Inductive Update :=
| SetText (v : string)
| SetType (v : string)
| SetRequired (v : bool)
| SetHardFilter (v : bool)
| SetOptions (v : option (list string))
| SetTags (v : option (list string)).

(** The assignment [column = ?] with the value the code binds. *)
Definition assign (row : QuestionRow) (u : Update) : QuestionRow :=
  match u with
  | SetText v =>
      {| qr_id := qr_id row; qr_text := v; qr_type := qr_type row;
         qr_required := qr_required row; qr_hardFilter := qr_hardFilter row;
         qr_options := qr_options row; qr_tags := qr_tags row;
         qr_created_at := qr_created_at row |}
  | SetType v =>
      {| qr_id := qr_id row; qr_text := qr_text row; qr_type := v;
         qr_required := qr_required row; qr_hardFilter := qr_hardFilter row;
         qr_options := qr_options row; qr_tags := qr_tags row;
         qr_created_at := qr_created_at row |}
  | SetRequired v =>
      {| qr_id := qr_id row; qr_text := qr_text row; qr_type := qr_type row;
         qr_required := if v then 1 else 0; qr_hardFilter := qr_hardFilter row;
         qr_options := qr_options row; qr_tags := qr_tags row;
         qr_created_at := qr_created_at row |}
  | SetHardFilter v =>
      {| qr_id := qr_id row; qr_text := qr_text row; qr_type := qr_type row;
         qr_required := qr_required row; qr_hardFilter := if v then 1 else 0;
         qr_options := qr_options row; qr_tags := qr_tags row;
         qr_created_at := qr_created_at row |}
  | SetOptions v =>
      {| qr_id := qr_id row; qr_text := qr_text row; qr_type := qr_type row;
         qr_required := qr_required row; qr_hardFilter := qr_hardFilter row;
         qr_options := v; qr_tags := qr_tags row;
         qr_created_at := qr_created_at row |}
  | SetTags v =>
      {| qr_id := qr_id row; qr_text := qr_text row; qr_type := qr_type row;
         qr_required := qr_required row; qr_hardFilter := qr_hardFilter row;
         qr_options := qr_options row; qr_tags := default [] v;
         qr_created_at := qr_created_at row |}
  end.

Definition quoted (s : string) : string :=
  String (Ascii.ascii_of_nat 34) (s +:+ String (Ascii.ascii_of_nat 34) "").

Definition SQL_syntax_error : JsError :=
  {| status := None;
     message := "SQLITE_ERROR: near " +:+ quoted "WHERE" +:+ ": syntax error" |}.

(** The key of a property of the [updates] object. *)
Definition column (u : Update) : string :=
  match u with
  | SetText _ => "text"
  | SetType _ => "type"
  | SetRequired _ => "required"
  | SetHardFilter _ => "hardFilter"
  | SetOptions _ => "options"
  | SetTags _ => "tags"
  end.

(** [updateQuestion]: [UPDATE questions SET k1 = ?, ... WHERE id = ?].  With
    no key the statement has an empty SET list and does not parse;
    otherwise the rows with that id are assigned, and the call resolves to
    [{id, ...updates}]. *)
Definition updateQuestion (id : string) (updates : list Update)
    (table : list QuestionRow)
  : (JsError + (string * list Update)) * list QuestionRow :=
  match updates with
  | [] => (inl SQL_syntax_error, table)
  | _ =>
      (inr (id, updates),
       map (fun row => if decide (qr_id row = id)
                       then foldl assign row updates else row) table)
  end.

(** [app.put('/api/questions/:id')]. *)
Definition update_question_endpoint (id : string) (updates : list Update)
    (table : list QuestionRow) : Reply (string * list Update) * list QuestionRow :=
  match updateQuestion id updates table with
  | (inr updatedQuestion, table') => (Json updatedQuestion, table')
  | (inl _, table') => (Error 500 "Failed to update question" None, table')
  end.

(** [deleteQuestion] and [app.delete('/api/questions/:id')]: the statement
    cannot fail, no table refers to [questions]. *)
Definition deleteQuestion (id : string) (table : list QuestionRow) : list QuestionRow :=
  filter (fun row => qr_id row <> id) table.

Definition delete_question_endpoint (id : string) (table : list QuestionRow)
  : Reply bool * list QuestionRow :=
  (Json true, deleteQuestion id table).

End Questions.

Import Questions.

(** * Specification side

    Definitions that follow the words of the specification, and the sample
    inputs the properties below are evaluated on. *)

(** ** Strings *)

Module StringSpec.

(** The text without its first [k] code units. *)
Fixpoint drop_chars (k : nat) (s : string) : string :=
  match k, s with
  | S k', String _ s' => drop_chars k' s'
  | _, _ => s
  end.

(** A text made of white space only. *)
Fixpoint blank (s : string) : bool :=
  match s with
  | String c s' => is_whitespace c && blank s'
  | EmptyString => true
  end.

End StringSpec.

Import StringSpec.

(** ** Response scorer *)

Module ScorerSpec.

(** [sub] occurs in [s] as a contiguous substring. *)
Definition occurs (sub s : string) : Prop :=
  exists pre suf, s = pre +:+ sub +:+ suf.

(** Case-insensitive occurrence: some substring of [s] lower-cases to
    [kw]. *)
Definition occurs_ci (kw s : string) : Prop :=
  exists pre t suf, s = pre +:+ t +:+ suf /\ toLowerCase t = kw.

(** The lines of the text, trimmed, that begin with a list marker. *)
Definition marked_lines (response : string) : list string :=
  filter (fun t => is_marked t = true) (map trim (split response LF)).

Definition bullet_lines (response : string) : list string :=
  map strip_marker (marked_lines response).

(** Paragraphs: the pieces between two consecutive line feeds. *)
Definition paragraphs (response : string) : list string :=
  split response (LF +:+ LF).

Definition structure_markers (response : string) : Prop :=
  occurs LF response \/ occurs "-" response \/ occurs "1." response.

(** The exact value of a finite binary64 number. *)
Definition float_to_Q (x : float) : Q :=
  match Prim2SF x with
  | S754_finite s m e =>
      let v := if s then Z.neg m else Z.pos m in
      if (0 <=? e)%Z then inject_Z (v * 2 ^ e) else Qmake v (Z.to_pos (2 ^ (- e)))
  | _ => 0%Q
  end.

End ScorerSpec.

Import ScorerSpec.

(** The completion of the scenario of the specification. *)
Definition scenario_text : string := "- insight one" +:+ LF +:+ "- insight two".

(** A text longer than 1000 code units with every keyword and a dash. *)
Definition rich_text : string :=
  String.concat " - "
    (replicate 20 "Analysis, Insight, Pattern, Recommendation and Conclusion").


(** Three marked lines between two plain paragraphs. *)
Definition mixed_text : string :=
  "Customers in the northern region buy more often than the others do."
  +:+ LF +:+ LF +:+ "- first" +:+ LF +:+ "* second" +:+ LF +:+ "3. third" +:+ LF +:+ LF
  +:+ "Orders placed at the weekend are larger and are returned less frequently.".

(** ** Prompt compiler *)

Module CompilerSpec.

(** The text a question adds to the prompt. *)
Definition line_of (excludedQuestions : gset string) (answers : gmap string Answer)
    (question : Question) : string :=
  visit_question excludedQuestions answers "" question.

(** The line [- <question text>: <answer>]. *)
Definition answer_line (question : Question) (answer : string) : string :=
  "- " +:+ q_text question +:+ ": " +:+ answer +:+ LF.

(** A multiple-choice question, and the answers left by ticking one of its
    boxes and clearing it again. *)
Definition markets_question : Question :=
  {| q_id := "q1"; q_text := "Target markets"; q_type := QMultiselect;
     q_required := false; q_hardFilter := false;
     q_options := Some ["EU"; "US"]; q_tags := [] |}.

Definition cleared_answers : gmap string Answer := {[ "q1" := AList [] ]}.

End CompilerSpec.

Import CompilerSpec.

(** ** Retry loop *)

Module RunnerSpec.

Definition rate_limit_error : JsError :=
  {| status := Some 429%Z; message := "429 Rate limit reached for requests" |}.

(** An upstream that rejects every call with status 429. *)
Definition always_rate_limited : Upstream := fun _ => Rejected rate_limit_error.

(** An upstream that rejects two calls with status 429, then answers. *)
Definition third_time_lucky (content : string) : Upstream :=
  fun n => if n <? 2 then Rejected rate_limit_error else Completed content.

(** The policy of the specification on the trace of a run: three requests,
    a sleep of 2000 ms after the first and of 4000 ms after the second. *)
Definition three_attempts : list Event :=
  [Request; Sleep 2000; Request; Sleep 4000; Request].

End RunnerSpec.

Import RunnerSpec.

(** ** Version resolver *)

Module VersionSpec.

(** What the specification asks of the prompts created under the name [N],
    in creation order: versions 1, 2, 3, ..., the first without a base, each
    later one based on the one before it. *)
Definition numbered_in_sequence (mine : list CreatedPrompt) : Prop :=
  forall i c, mine !! i = Some c ->
    c_version c = Z.of_nat (i + 1)
    /\ c_basePromptId c = match i with
                          | O => None
                          | S j => c_id <$> mine !! j
                          end.

(** Every creation succeeded, in the order of the requests, and those named
    [N] are numbered in sequence. *)
Definition created_in_sequence (N : string) (inputs : list PromptInput)
    (results : list (JsError + CreatedPrompt)) : Prop :=
  exists created : list CreatedPrompt,
    results = map inr created
    /\ map c_id created = map in_id inputs
    /\ map c_name created = map in_name inputs
    /\ numbered_in_sequence (filter (fun c => c_name c = N) created).

(** The prompts named [N] after [m] creations under that name: none when
    [m] is 0; otherwise the last row has version [m] and the id [last], and
    the rows before it have smaller versions. *)
Definition latest_is (N : string) (rows : list PromptRow) (m : nat)
    (last : option string) : Prop :=
  (m = 0 /\ last = None /\ filter (fun r => p_name r = N) rows = [])
  \/ (exists init r,
        filter (fun r => p_name r = N) rows = init ++ [r]
        /\ version r = Z.of_nat m /\ last = Some (p_id r)
        /\ Forall (fun x => (version x < Z.of_nat m)%Z) init).

(** Versions [m+1], [m+2], ..., each based on the one before, the first on
    [last]. *)
Fixpoint chain (m : nat) (last : option string) (cs : list CreatedPrompt) : Prop :=
  match cs with
  | [] => True
  | c :: cs' =>
      c_version c = Z.of_nat (m + 1) /\ c_basePromptId c = last
      /\ chain (S m) (Some (c_id c)) cs'
  end.

End VersionSpec.

Import VersionSpec.

(** ** Store *)

Module DeleteSpec.

Definition dependent_data_response : Response :=
  {| code := 400;
     error_text := Some "Cannot delete prompt: It has dependent data (test results or versioned prompts). Please delete the dependent data first." |}.

End DeleteSpec.

Import DeleteSpec.

Module StoreSamples.

Definition sample_input (id name : string) : PromptInput :=
  {| in_id := id; in_name := name; in_questions := []; in_answers := ∅;
     in_generatedPrompt := "Analyze: {data}"; in_tags := None |}.

(** Three prompts named A, with one named B created in between. *)
Definition sample_inputs : list PromptInput :=
  [sample_input "p1" "A"; sample_input "p2" "B";
   sample_input "p3" "A"; sample_input "p4" "A"].

Definition sample_prompts : Db := (create_all sample_inputs empty_db).2.

Definition sample_test (id promptId : string) (timestamp : string) : TestResultInput :=
  {| t_id := id; t_promptId := promptId; t_promptName := "A";
     t_promptVersion := None;
     t_jsonData := {| jd_type := Some "text"; jd_json := "{}" |};
     t_result := {| r_summary := "Analysis of JSON data using custom prompt: A";
                    r_insights := Some ["insight one"; "insight two"];
                    r_confidence := 0.65; r_processingTime := 1200;
                    r_chatGPTResponse := "- insight one"; r_model := "gpt-4" |};
     t_tokensUsed := None; t_costUsd := None; t_timestamp := Some timestamp |}.

(** The sample prompts after two tests of p1 and one of p4. *)
Definition sample_db : Db :=
  let db := sample_prompts in
  let db := (createTestResult "" (sample_test "t1" "p1" "2024-05-01T10:00:00.000Z") db).2 in
  let db := (createTestResult "" (sample_test "t2" "p1" "2024-05-02T09:30:00.000Z") db).2 in
  (createTestResult "" (sample_test "t3" "p4" "2024-05-02T11:00:00.000Z") db).2.

(** The date part of an ISO 8601 timestamp. *)
Definition iso_date (timestamp : string) : option string :=
  if String.length timestamp <? 10 then None else Some (String.substring 0 10 timestamp).

End StoreSamples.

Import StoreSamples.

(** ** Further notions: texts, wizard, replies, store invariants *)

Module TextSpec.

(** A text that is empty or begins with a visible character. *)
Definition visible_head (s : string) : Prop :=
  match s with
  | String c _ => is_whitespace c = false
  | EmptyString => True
  end.

(** A text that is empty or ends with a visible character. *)
Definition visible_last (s : string) : Prop :=
  forall t c, s = t +:+ String c "" -> is_whitespace c = false.

(** A character that lower-casing neither produces nor changes. *)
Definition caseless (x : ascii) : Prop :=
  forall c, Ascii.eqb x (lower_char c) = Ascii.eqb x c.

Fixpoint all_caseless (sub : string) : Prop :=
  match sub with
  | String x sub' => caseless x /\ all_caseless sub'
  | EmptyString => True
  end.

End TextSpec.

Import TextSpec.

Module WizardSpec.

(** Tags are kept without duplicates, non-empty and trimmed. *)
Definition tags_ok (tags : list string) : Prop :=
  NoDup tags /\ forall t, t ∈ tags -> t <> "" /\ trim t = t.

(** What the user does in the tag editor. *)
Inductive TagEvent :=
| TypeTag (text : string)
| PressAdd
| PressRemove (tag : string).

Definition tag_step (st : TagState) (e : TagEvent) : TagState :=
  match e with
  | TypeTag text => setTagInput text st
  | PressAdd => addTag st
  | PressRemove tag => removeTag tag st
  end.

Definition tag_run (events : list TagEvent) : TagState :=
  foldl tag_step {| promptTags := []; tagInput := "" |} events.

End WizardSpec.

Import WizardSpec.

Module ReplySpec.

(** The status codes [/api/test] answers an error with. *)
Definition error_codes : list Z := [404; 401; 429; 402; 500]%Z.

(** An error with status 429 whose message names [insufficient_quota]. *)
Definition quota_error : JsError :=
  {| status := Some 429%Z;
     message := "429 You exceeded your current quota, please check your plan and billing details. (insufficient_quota)" |}.

End ReplySpec.

Import ReplySpec.

(** A request of [/api/test] on the sample store: no model configured, a
    text payload, and a completion service that answers at once. *)
Module EndpointSamples.

Definition sample_env : Env := {| OPENAI_MODEL := None |}.

Definition sample_payload : Payload :=
  {| pl_type := Some "text"; pl_content := "a,b"; pl_pretty := "a,b";
     pl_compact := "a,b" |}.

Definition sample_api : ChatRequest -> Upstream :=
  fun _ _ => Completed scenario_text.

Definition sample_reply : Reply TestResultInput * Db :=
  test_endpoint sample_env "t9" "2024-05-03T08:00:00.000Z" 1500 sample_api "p1"
    sample_payload sample_db.

End EndpointSamples.

Import EndpointSamples.

Module IntegritySpec.

(** Primary keys are unique, every reference points to a stored prompt,
    [prompt_analytics] is empty and versions start at 1. *)
Record consistent (db : Db) : Prop := {
  prompt_ids_unique : NoDup (map p_id (prompts db));
  result_ids_unique : NoDup (map tr_id (test_results db));
  results_refer : forall tr, tr ∈ test_results db -> prompt_id tr ∈ map p_id (prompts db);
  bases_refer : forall r b, r ∈ prompts db -> base_prompt_id r = Some b ->
                            b ∈ map p_id (prompts db);
  analytics_empty : prompt_analytics db = [];
  versions_positive : forall r, r ∈ prompts db -> (1 <= version r)%Z
}.


End IntegritySpec.

Import IntegritySpec.

Module VersionListSpec.


End VersionListSpec.

Import VersionListSpec.

Module QuestionSpec.

(** What the listing shows of a question after the property [u] was sent
    for it. *)
Definition shows (u : Update) (q : ListedQuestion) : Prop :=
  match u with
  | SetText v => lq_text q = v
  | SetType v => lq_type q = v
  | SetRequired v => lq_required q = (if v then 1 else 0)%Z
  | SetHardFilter v => lq_hardFilter q = v
  | SetOptions v => lq_options q = default [] v
  | SetTags v => lq_tags q = default [] v
  end.

(** A stored question with two options. *)
Definition budget_row : QuestionRow :=
  {| qr_id := "q9"; qr_text := "Budget"; qr_type := "select";
     qr_required := 0; qr_hardFilter := 0;
     qr_options := Some ["low"; "high"]; qr_tags := [];
     qr_created_at := "2024-03-01 10:00:00" |}.

End QuestionSpec.

Import QuestionSpec.

(** * Properties *)

(** ** Strings *)

Section StringFacts.

Lemma append_cons (c : ascii) (s t : string) : String c s +:+ t = String c (s +:+ t).
Proof. reflexivity. Qed.

Lemma append_nil_l (s : string) : "" +:+ s = s.
Proof. reflexivity. Qed.

Lemma append_nil_r (s : string) : s +:+ "" = s.
Proof.
  induction s as [|c s IH]; [reflexivity|].
  by rewrite append_cons, IH.
Qed.

Lemma append_assoc (a b c : string) : (a +:+ b) +:+ c = a +:+ (b +:+ c).
Proof.
  induction a as [|x a IH]; [reflexivity|].
  by rewrite !append_cons, IH.
Qed.

Lemma length_append (a b : string) :
  String.length (a +:+ b) = String.length a + String.length b.
Proof.
  induction a as [|x a IH]; [reflexivity|].
  rewrite append_cons. simpl. by rewrite IH.
Qed.

Lemma prefix_iff (p s : string) :
  String.prefix p s = true <-> exists suf, s = p +:+ suf.
Proof.
  revert s; induction p as [|c p IH]; intros s.
  - destruct s; simpl; split; eauto.
  - destruct s as [|d s]; simpl.
    + split; [discriminate | intros [suf H]; discriminate].
    + destruct (ascii_dec c d) as [->|Hne].
      * rewrite IH. split; intros [suf H]; exists suf.
        -- by rewrite append_cons, <- H.
        -- rewrite append_cons in H. congruence.
      * split; [discriminate | intros [suf H]].
        rewrite append_cons in H. congruence.
Qed.

Lemma includes_nil (sub : string) : includes "" sub = String.prefix sub "" || false.
Proof. reflexivity. Qed.

Lemma includes_cons (c : ascii) (s sub : string) :
  includes (String c s) sub = String.prefix sub (String c s) || includes s sub.
Proof. reflexivity. Qed.

Lemma includes_occurs (s sub : string) : includes s sub = true <-> occurs sub s.
Proof.
  unfold occurs. induction s as [|c s IH]; [rewrite includes_nil | rewrite includes_cons].
  - rewrite orb_false_r, prefix_iff. split.
    + intros [suf H]. exists "", suf. exact H.
    + intros (pre & suf & H). destruct pre; [eauto | discriminate].
  - rewrite orb_true_iff, prefix_iff, IH. split.
    + intros [[suf H] | (pre & suf & H)].
      * exists "", suf. exact H.
      * exists (String c pre), suf. by rewrite append_cons, <- H.
    + intros (pre & suf & H). destruct pre as [|d pre].
      * left. eauto.
      * right. exists pre, suf. rewrite append_cons in H. congruence.
Qed.

Lemma toLowerCase_append (a b : string) :
  toLowerCase (a +:+ b) = toLowerCase a +:+ toLowerCase b.
Proof.
  induction a as [|x a IH]; [reflexivity|].
  rewrite append_cons. simpl. by rewrite IH.
Qed.

Lemma toLowerCase_split (s a b : string) :
  toLowerCase s = a +:+ b ->
  exists s1 s2, s = s1 +:+ s2 /\ toLowerCase s1 = a /\ toLowerCase s2 = b.
Proof.
  revert s; induction a as [|x a IH]; intros s H.
  - exists "", s. auto.
  - rewrite append_cons in H.
    destruct s as [|c s]; simpl in H; [discriminate|].
    injection H as Hc Hs. destruct (IH _ Hs) as (s1 & s2 & -> & H1 & H2).
    exists (String c s1), s2. simpl. rewrite H1, Hc. auto.
Qed.

(** Looking a keyword up in the lower-cased text is a case-insensitive
    substring search. *)
Lemma includes_lower_ci (s kw : string) :
  includes (toLowerCase s) kw = true <-> occurs_ci kw s.
Proof.
  rewrite includes_occurs. unfold occurs, occurs_ci. split.
  - intros (pre & suf & H).
    destruct (toLowerCase_split _ _ _ H) as (s1 & s23 & -> & H1 & H23).
    destruct (toLowerCase_split _ _ _ H23) as (s2 & s3 & -> & H2 & H3).
    exists s1, s2, s3. auto.
  - intros (pre & t & suf & -> & Ht).
    exists (toLowerCase pre), (toLowerCase suf).
    by rewrite !toLowerCase_append, Ht.
Qed.

End StringFacts.

Section SplitFacts.

Lemma split_from_skip (sep : string) (k : nat) (s : string) :
  split_from sep k s = split_from sep 0 (drop_chars k s).
Proof.
  revert s; induction k as [|k IH]; intros s.
  - destruct s; reflexivity.
  - destruct s as [|c s]; [reflexivity|]. simpl. apply IH.
Qed.

Lemma split_from_cons (sep : string) (c : ascii) (s : string) :
  split_from sep 0 (String c s) =
  if String.prefix sep (String c s)
  then "" :: split_from sep (String.length sep - 1) s
  else match split_from sep 0 s with
       | p :: ps => String c p :: ps
       | [] => [String c ""]
       end.
Proof. reflexivity. Qed.

Lemma split_from_nonempty (sep : string) (k : nat) (s : string) :
  split_from sep k s <> [].
Proof.
  revert k; induction s as [|c s IH]; intros k; [discriminate|].
  destruct k as [|k]; [|apply IH].
  rewrite split_from_cons.
  destruct (String.prefix sep (String c s)); [discriminate|].
  destruct (split_from sep 0 s); discriminate.
Qed.

Lemma drop_chars_append (a b : string) : drop_chars (String.length a) (a +:+ b) = b.
Proof. induction a as [|x a IH]; [by destruct b | exact IH]. Qed.

Lemma concat_cons (sep x : string) (xs : list string) :
  xs <> [] -> String.concat sep (x :: xs) = x +:+ sep +:+ String.concat sep xs.
Proof. by destruct xs. Qed.

Lemma concat_split_length (sep : string) (n : nat) :
  sep <> "" -> forall s, String.length s <= n -> String.concat sep (split s sep) = s.
Proof.
  intros Hsep. unfold split. induction n as [|n IH]; intros s Hlen.
  - destruct s; [reflexivity | simpl in Hlen; lia].
  - destruct s as [|c s]; [reflexivity|]. simpl in Hlen.
    rewrite split_from_cons. destruct (String.prefix sep (String c s)) eqn:E.
    + apply prefix_iff in E as [rest E].
      destruct sep as [|c0 sep]; [done|]. rewrite append_cons in E.
      injection E as -> ->.
      rewrite split_from_skip. simpl String.length.
      replace (S (String.length sep) - 1) with (String.length sep) by lia.
      rewrite drop_chars_append.
      rewrite concat_cons by apply split_from_nonempty.
      rewrite IH; [reflexivity|]. rewrite length_append in Hlen. lia.
    + pose proof (split_from_nonempty sep 0 s) as Hne.
      specialize (IH s ltac:(lia)).
      destruct (split_from sep 0 s) as [|p ps]; [done|].
      destruct ps as [|p' ps]; simpl in *; [by rewrite IH|].
      rewrite append_cons. by rewrite IH.
Qed.

(** Joining the pieces of a split with the separator gives the text back. *)
Lemma concat_split (s sep : string) : sep <> "" -> String.concat sep (split s sep) = s.
Proof. intros H. by apply (concat_split_length sep (String.length s)). Qed.

End SplitFacts.

Section TrimFacts.

Lemma trimStart_spec (s : string) :
  exists ws, s = ws +:+ trimStart s /\ blank ws = true
             /\ match trimStart s with
                | String c _ => is_whitespace c = false
                | EmptyString => True
                end.
Proof.
  induction s as [|c s (ws & E & Hws & Hhead)].
  - exists "". done.
  - simpl. destruct (is_whitespace c) eqn:Ec.
    + exists (String c ws). rewrite append_cons, <- E. simpl. by rewrite Ec, Hws.
    + exists "". by rewrite Ec.
Qed.

Lemma trimEnd_cons (c : ascii) (s : string) :
  trimEnd (String c s) =
  match trimEnd s with
  | EmptyString => if is_whitespace c then EmptyString else String c EmptyString
  | t => String c t
  end.
Proof. reflexivity. Qed.

Lemma trimEnd_spec (s : string) :
  exists ws, s = trimEnd s +:+ ws /\ blank ws = true
             /\ forall t c, trimEnd s = t +:+ String c "" -> is_whitespace c = false.
Proof.
  induction s as [|c s (ws & E & Hws & Hlast)].
  - exists "". split; [done|]. split; [done|].
    intros [|x t] c H; discriminate.
  - rewrite trimEnd_cons. destruct (trimEnd s) as [|d t0] eqn:Et.
    + destruct (is_whitespace c) eqn:Ec.
      * exists (String c ws). rewrite append_nil_l in *. subst s.
        split; [done|]. split; [simpl; by rewrite Ec, Hws|].
        intros [|x t] c' H; discriminate.
      * exists ws. rewrite append_nil_l in E. subst s. split; [done|].
        split; [done|]. intros [|x t] c' H.
        -- injection H as ->. done.
        -- rewrite append_cons in H. injection H as _ H. by destruct t.
    + exists ws. rewrite append_cons, <- E. split; [done|]. split; [done|].
      intros [|x t] c' H.
      * discriminate.
      * rewrite append_cons in H. injection H as _ H. by apply (Hlast t c').
Qed.

End TrimFacts.

(** ** Response scorer *)

#[global] Instance occurs_dec (sub s : string) : Decision (occurs sub s).
Proof.
  destruct (includes s sub) eqn:E.
  - left. by apply includes_occurs.
  - right. intros H. apply includes_occurs in H. congruence.
Defined.

#[global] Instance occurs_ci_dec (kw s : string) : Decision (occurs_ci kw s).
Proof.
  destruct (includes (toLowerCase s) kw) eqn:E.
  - left. by apply includes_lower_ci.
  - right. intros H. apply includes_lower_ci in H. congruence.
Defined.

#[global] Instance structure_markers_dec (s : string) : Decision (structure_markers s).
Proof. unfold structure_markers. apply _. Defined.

(** The additive rule, stated with these tests. *)

Module ConfidenceSpec.

(** How many of the five keywords occur in the text, whatever the case. *)
Definition keyword_hits (response : string) : nat :=
  length (filter (fun kw => occurs_ci kw response) analyticalKeywords).

(** The additive rule in hundredths, as the specification words it. *)
Definition confidence_percent (response : string) : nat :=
  (50 + (if decide (500 < String.length response) then 10 else 0)
      + (if decide (1000 < String.length response) then 10 else 0)
      + (if decide (structure_markers response) then 10 else 0)
      + 5 * keyword_hits response) `min` 95.

(** The same rule carried out on binary64 numbers, in the order of the
    specification. *)
Definition plus_if (cond : Prop) `{!Decision cond} (amount x : float) : float :=
  if decide cond then (x + amount)%float else x.

Definition confidence_double (response : string) : float :=
  let x := 0.5%float in
  let x := plus_if (500 < String.length response) 0.1 x in
  let x := plus_if (1000 < String.length response) 0.1 x in
  let x := plus_if (structure_markers response) 0.1 x in
  let x := (x + of_nat (keyword_hits response) * 0.05)%float in
  Math_min x 0.95.

(** The score as a function of the three tests and the keyword count. *)
Definition score (long very_long structured : bool) (hits : nat) : float :=
  let x := 0.5%float in
  let x := if long then (x + 0.1)%float else x in
  let x := if very_long then (x + 0.1)%float else x in
  let x := if structured then (x + 0.1)%float else x in
  Math_min (x + of_nat hits * 0.05)%float 0.95.

Definition percent (long very_long structured : bool) (hits : nat) : nat :=
  (50 + (if long then 10 else 0) + (if very_long then 10 else 0)
      + (if structured then 10 else 0) + 5 * hits) `min` 95.

(** Distance of a double from a number of hundredths, at most 2^-52. *)
Definition close_to (x : float) (hundredths : nat) : Prop :=
  (Qabs (float_to_Q x - (Z.of_nat hundredths # 100)) <= 1 # 2 ^ 52)%Q.

End ConfidenceSpec.

Import ConfidenceSpec.

Section ScorerFacts.

Lemma if_bool_decide {A : Type} (P : Prop) (dec : Decision P) (x y : A) :
  (if @bool_decide P dec then x else y) = (if @decide P dec then x else y).
Proof. unfold bool_decide, decide. by destruct dec. Qed.

Lemma keyword_hits_filter (response : string) :
  keyword_hits response =
  length (filter (fun keyword => includes (toLowerCase response) keyword = true)
                 analyticalKeywords).
Proof.
  unfold keyword_hits. f_equal. apply list_filter_iff.
  intros kw. symmetry. apply includes_lower_ci.
Qed.

Lemma keyword_hits_le (response : string) : keyword_hits response <= 5.
Proof. unfold keyword_hits. apply (length_filter _ analyticalKeywords). Qed.

Lemma structure_markers_includes (response : string) :
  includes response LF || includes response "-" || includes response "1." = true
  <-> structure_markers response.
Proof.
  unfold structure_markers. rewrite !orb_true_iff, !includes_occurs. tauto.
Qed.

Lemma calculateConfidence_score (response : string) :
  calculateConfidence response =
  score (bool_decide (500 < String.length response))
        (bool_decide (1000 < String.length response))
        (bool_decide (structure_markers response))
        (keyword_hits response).
Proof.
  unfold calculateConfidence, score. rewrite keyword_hits_filter.
  assert (E1 : forall n, (n <? String.length response)
                         = bool_decide (n < String.length response)).
  { intros n. destruct (Nat.ltb_spec n (String.length response)).
    - by rewrite bool_decide_eq_true_2.
    - rewrite bool_decide_eq_false_2; [done | lia]. }
  rewrite !E1.
  assert (E3 : includes response LF || includes response "-" || includes response "1."
               = bool_decide (structure_markers response)).
  { destruct (bool_decide (structure_markers response)) eqn:E.
    - apply structure_markers_includes. by apply bool_decide_eq_true in E.
    - apply bool_decide_eq_false in E. apply not_true_is_false.
      by rewrite structure_markers_includes. }
  by rewrite E3.
Qed.

Lemma confidence_double_score (response : string) :
  confidence_double response =
  score (bool_decide (500 < String.length response))
        (bool_decide (1000 < String.length response))
        (bool_decide (structure_markers response))
        (keyword_hits response).
Proof.
  unfold confidence_double, score, plus_if.
  by rewrite !if_bool_decide.
Qed.

Lemma confidence_percent_percent (response : string) :
  confidence_percent response =
  percent (bool_decide (500 < String.length response))
          (bool_decide (1000 < String.length response))
          (bool_decide (structure_markers response))
          (keyword_hits response).
Proof.
  unfold confidence_percent, percent.
  by rewrite !if_bool_decide.
Qed.

(** Every combination of the tests and of up to five keywords. *)
Lemma score_cases (long very_long structured : bool) (hits : nat) :
  hits <= 5 ->
  close_to (score long very_long structured hits)
           (percent long very_long structured hits)
  /\ PrimFloat.leb 0.5 (score long very_long structured hits) = true
  /\ PrimFloat.leb (score long very_long structured hits) 0.95 = true.
Proof.
  intros H.
  assert (Hh : hits = 0 \/ hits = 1 \/ hits = 2 \/ hits = 3 \/ hits = 4 \/ hits = 5) by lia.
  destruct long, very_long, structured;
    destruct Hh as [->|[->|[->|[->|[->| ->]]]]];
    (split; [ unfold close_to; apply Qle_bool_imp_le; vm_compute; reflexivity
            | split; vm_compute; reflexivity ]).
Qed.

End ScorerFacts.

Section InsightFacts.

Lemma is_marked_empty : is_marked "" = false.
Proof. reflexivity. Qed.

(** [forEach] with [push] collects the stripped marked lines in order. *)
Lemma foldl_visit_line (lines insights : list string) :
  foldl visit_line insights lines =
  insights ++ map strip_marker (filter (fun t => is_marked t = true) (map trim lines)).
Proof.
  revert insights; induction lines as [|line lines IH]; intros insights; simpl.
  - by rewrite app_nil_r.
  - rewrite IH. unfold visit_line. destruct (is_marked (trim line)) eqn:E.
    + rewrite filter_cons_True by done. simpl. by rewrite <- app_assoc.
    + rewrite filter_cons_False by congruence. done.
Qed.

(** Dropping the blank lines first loses no marked line. *)
Lemma marked_nonblank (lines : list string) :
  filter (fun t => is_marked t = true)
         (map trim (filter (fun line => truthy (trim line) = true) lines))
  = filter (fun t => is_marked t = true) (map trim lines).
Proof.
  induction lines as [|line lines IH]; [reflexivity|].
  destruct (truthy (trim line)) eqn:E.
  - rewrite filter_cons_True by done. simpl. rewrite !filter_cons, IH. done.
  - rewrite filter_cons_False by congruence. simpl.
    rewrite (filter_cons_False _ (trim line)); [exact IH|].
    destruct (trim line); [rewrite is_marked_empty; discriminate | discriminate].
Qed.

Lemma extractInsights_unfold (response : string) :
  extractInsights response =
  match bullet_lines response with
  | [] => take 5 (filter (fun p => 50 < String.length (trim p)) (paragraphs response))
  | _ :: _ => take 5 (bullet_lines response)
  end.
Proof.
  unfold extractInsights, bullet_lines, marked_lines, paragraphs.
  rewrite foldl_visit_line, marked_nonblank. simpl.
  by destruct (map strip_marker _).
Qed.

End InsightFacts.

(** *** The scenario of the specification *)

(** C3, as stated, fails: for the completion made of the two lines
    [- insight one] and [- insight two] the insights are the two stripped
    lines, but the confidence is not 0.6. *)
Lemma scenario_confidence_is_not_0_6 :
  ~ (extractInsights scenario_text = ["insight one"; "insight two"]
     /\ calculateConfidence scenario_text = 0.6%float).
Proof.
  intros [_ H].
  apply (f_equal (fun x => PrimFloat.ltb 0.6 x)) in H.
  vm_compute in H. discriminate.
Qed.

(** C3, amended: for that completion the insights are [insight one] and
    [insight two], and the confidence is exactly 0.65: the base 0.5, no
    length bonus (27 code units), the structure bonus 0.1, and 0.05 for the
    one keyword found, [insight]. *)
Theorem scenario_scores :
  extractInsights scenario_text = ["insight one"; "insight two"]
  /\ calculateConfidence scenario_text = 0.65%float
  /\ String.length scenario_text = 27
  /\ structure_markers scenario_text
  /\ filter (fun kw => occurs_ci kw scenario_text) analyticalKeywords = ["insight"].
Proof.
  split; [vm_compute; reflexivity|].
  split; [vm_compute; reflexivity|].
  split; [reflexivity|].
  split.
  - apply structure_markers_includes. vm_compute. reflexivity.
  - rewrite <- (list_filter_iff _ _ analyticalKeywords
                  (fun kw => includes_lower_ci scenario_text kw)).
    vm_compute. reflexivity.
Qed.

(** *** Confidence *)

Example rich_text_confidence :
  1000 < String.length rich_text /\ calculateConfidence rich_text = 0.95%float.
Proof. split; vm_compute; [lia | reflexivity]. Qed.

(** C6: the confidence of a text is the additive rule of the specification
    (0.5, plus 0.1 above 500 code units, plus 0.1 above 1000, plus 0.1 for a
    line feed, a dash or [1.], plus 0.05 for each of the five keywords that
    occurs whatever the case, at most 0.95), computed on doubles; its exact
    value is within 2^-52 of the rule in hundredths; it lies between 0.5 and
    0.95; with both length bonuses, a structure marker and all five keywords
    it is exactly 0.95; for the empty text it is exactly 0.5. *)
Theorem calculateConfidence_formula (response : string) :
  calculateConfidence response = confidence_double response
  /\ close_to (calculateConfidence response) (confidence_percent response)
  /\ PrimFloat.leb 0.5 (calculateConfidence response) = true
  /\ PrimFloat.leb (calculateConfidence response) 0.95 = true
  /\ (1000 < String.length response ->
      structure_markers response ->
      Forall (fun kw => occurs_ci kw response) analyticalKeywords ->
      calculateConfidence response = 0.95%float)
  /\ calculateConfidence "" = 0.5%float.
Proof.
  pose proof (score_cases (bool_decide (500 < String.length response))
                (bool_decide (1000 < String.length response))
                (bool_decide (structure_markers response))
                (keyword_hits response) (keyword_hits_le response)) as (Hc & Hlo & Hhi).
  rewrite <- calculateConfidence_score in Hlo, Hhi, Hc.
  rewrite <- confidence_percent_percent in Hc.
  split; [by rewrite calculateConfidence_score, confidence_double_score|].
  split; [exact Hc|]. split; [exact Hlo|]. split; [exact Hhi|].
  split; [|reflexivity].
  intros Hlen Hstruct Hall.
  rewrite calculateConfidence_score.
  rewrite !bool_decide_eq_true_2 by (done || lia).
  assert (keyword_hits response = 5) as ->; [|reflexivity].
  unfold keyword_hits.
  assert (E : filter (fun kw => occurs_ci kw response) analyticalKeywords
              = analyticalKeywords); [|by rewrite E].
  clear -Hall. induction Hall as [|kw kws Hkw _ IH]; [reflexivity|].
  by rewrite filter_cons_True, IH.
Qed.

(** *** Insights *)


Example mixed_text_insights : extractInsights mixed_text = ["first"; "second"; "third"].
Proof. vm_compute. reflexivity. Qed.


(** ** Prompt compiler *)

Section CompilerFacts.

Context (excludedQuestions : gset string) (answers : gmap string Answer).

Lemma visit_question_line (prompt : string) (question : Question) :
  visit_question excludedQuestions answers prompt question
  = prompt +:+ line_of excludedQuestions answers question.
Proof.
  unfold line_of, visit_question.
  destruct (decide (q_id question ∈ excludedQuestions)); [by rewrite append_nil_r|].
  cbv zeta. destruct (answers !! q_id question) as [a|].
  - destruct (answer_given (Some a)); [reflexivity | by rewrite append_nil_r].
  - destruct (answer_given None); by rewrite append_nil_r.
Qed.

Lemma foldl_visit_question (prompt : string) (questions : list Question) :
  foldl (visit_question excludedQuestions answers) prompt questions
  = prompt +:+ String.concat "" (map (line_of excludedQuestions answers) questions).
Proof.
  revert prompt; induction questions as [|q qs IH]; intros prompt.
  - simpl. by rewrite append_nil_r.
  - simpl foldl. rewrite IH, visit_question_line, append_assoc. f_equal.
    destruct qs as [|q' qs]; [by rewrite append_nil_r | reflexivity].
Qed.


Lemma line_of_absent (question : Question) :
  answers !! q_id question = None ->
  line_of excludedQuestions answers question = "".
Proof.
  intros H. unfold line_of, visit_question. rewrite H.
  by destruct (decide _).
Qed.

Lemma line_of_empty_string (question : Question) :
  answers !! q_id question = Some (AText "") ->
  line_of excludedQuestions answers question = "".
Proof.
  intros H. unfold line_of, visit_question. rewrite H.
  by destruct (decide _).
Qed.


(** An array answer is rendered whatever its length. *)
Lemma line_of_list (question : Question) (xs : list string) :
  q_id question ∉ excludedQuestions ->
  answers !! q_id question = Some (AList xs) ->
  line_of excludedQuestions answers question = answer_line question (join xs ", ").
Proof.
  intros Hex H. unfold line_of, visit_question. by rewrite decide_False, H.
Qed.

End CompilerFacts.

(** C4 at the input the claim fails on: a question that is not excluded and
    whose answer is the empty list gets the line [- Target markets: ], so
    the prompt differs from the one compiled without the question. *)
Theorem empty_list_answer_is_rendered :
  generatePrompt "Shops" [markets_question] ∅ cleared_answers
  = preamble "Shops" +:+ answer_line markets_question "" +:+ instructions
  /\ generatePrompt "Shops" [markets_question] ∅ cleared_answers
     <> generatePrompt "Shops" [] ∅ cleared_answers.
Proof. split; [vm_compute; reflexivity | vm_compute; discriminate]. Qed.


(** ** Retry loop *)

Section RunnerFacts.

(** The loop ends within [maxRetries] rounds, whatever the upstream does. *)
Lemma retry_loop_total (fuel : nat) (upstream : Upstream) (calls retryCount : nat)
    (retryDelay : Binding) (trace : list Event) :
  maxRetries - retryCount < fuel ->
  is_Some (retry_loop fuel upstream calls retryCount retryDelay trace).
Proof.
  revert calls retryCount retryDelay trace.
  induction fuel as [|fuel IH]; intros calls retryCount retryDelay trace H.
  - lia.
  - simpl. destruct (retryCount <? maxRetries) eqn:E1; [|eauto].
    destruct (upstream calls) as [content|error]; [eauto|].
    case_bool_decide; [|eauto].
    destruct (S retryCount <? maxRetries) eqn:E2; [|eauto].
    destruct (mul_assign retryDelay 2) as [e|b]; [eauto|].
    apply IH. apply Nat.ltb_lt in E2. lia.
Qed.

Lemma call_with_retries_total (decl : DeclKind) (upstream : Upstream) :
  is_Some (run_retries decl upstream).
Proof. apply retry_loop_total. unfold maxRetries. lia. Qed.

(** A call that succeeds at once is returned after one request. *)
Lemma first_call_completed (upstream : Upstream) (content : string) :
  upstream 0 = Completed content ->
  call_with_retries upstream = Some (Returned content, [Request]).
Proof. intros H. unfold call_with_retries, run_retries. simpl. by rewrite H. Qed.

(** An error other than a rate limit is thrown at once, without a retry. *)
Lemma other_error_aborts (upstream : Upstream) (error : JsError) :
  upstream 0 = Rejected error -> status error <> Some 429%Z ->
  call_with_retries upstream = Some (Thrown error, [Request]).
Proof.
  intros H Hs. unfold call_with_retries, run_retries. simpl. rewrite H.
  by rewrite bool_decide_eq_false_2.
Qed.

(** After the first rate-limit error the loop sleeps, then the assignment
    to the [const] binding throws: no second request is made. *)
Lemma first_rate_limit_throws (upstream : Upstream) (error : JsError) :
  upstream 0 = Rejected error -> status error = Some 429%Z ->
  call_with_retries upstream = Some (Thrown TypeError_const, [Request; Sleep 2000]).
Proof.
  intros H Hs. unfold call_with_retries, run_retries. simpl. rewrite H.
  by rewrite bool_decide_eq_true_2.
Qed.

(** With [let retryDelay] the loop would follow the policy. *)
Lemma let_binding_exhausts (upstream : Upstream) (e0 e1 e2 : JsError) :
  upstream 0 = Rejected e0 -> upstream 1 = Rejected e1 -> upstream 2 = Rejected e2 ->
  status e0 = Some 429%Z -> status e1 = Some 429%Z -> status e2 = Some 429%Z ->
  run_retries Let upstream = Some (Thrown e2, three_attempts).
Proof.
  intros H0 H1 H2 S0 S1 S2. unfold run_retries. simpl.
  rewrite H0, bool_decide_eq_true_2 by done. simpl.
  rewrite H1, bool_decide_eq_true_2 by done. simpl.
  rewrite H2, bool_decide_eq_true_2 by done. reflexivity.
Qed.

Lemma let_binding_recovers (content : string) :
  run_retries Let (third_time_lucky content) = Some (Returned content, three_attempts).
Proof. reflexivity. Qed.

End RunnerFacts.

(** C1 at the inputs the claim fails on.  When every call is rejected with
    status 429 the loop makes one request, sleeps 2000 ms and then throws
    the [TypeError] of the assignment to [const retryDelay]; the handler
    answers 500, not 429.  When two calls are rejected and the third would
    succeed, the outcome is the same: the completion is never returned. *)
Theorem retry_stops_after_first_sleep :
  call_with_retries always_rate_limited
  = Some (Thrown TypeError_const, [Request; Sleep 2000])
  /\ (forall content,
        call_with_retries (third_time_lucky content)
        = Some (Thrown TypeError_const, [Request; Sleep 2000]))
  /\ error_response TypeError_const = (500%Z, "Failed to test prompt with ChatGPT")
  /\ error_response rate_limit_error
     = (429%Z, "OpenAI API rate limit exceeded. Please try again in a few minutes.").
Proof. repeat split. Qed.

(** ** Version resolver *)

Section VersionFacts.

Lemma max_version_row_last (init : list PromptRow) (r : PromptRow) :
  Forall (fun x => (version x < version r)%Z) init ->
  max_version_row (init ++ [r]) = Some r.
Proof.
  induction 1 as [|x init Hx _ IH]; simpl; [reflexivity|].
  rewrite IH. by rewrite (proj2 (Z.ltb_lt _ _) Hx).
Qed.

Lemma latest_named_spec (N : string) (rows : list PromptRow) (m : nat)
    (last : option string) :
  latest_is N rows m last ->
  p_id <$> latest_named N rows = last
  /\ match latest_named N rows with
     | Some e => (version e + 1)%Z
     | None => 1%Z
     end = Z.of_nat (m + 1).
Proof.
  unfold latest_named.
  intros [(-> & -> & ->) | (init & r & -> & Hv & -> & Hinit)].
  - split; reflexivity.
  - rewrite max_version_row_last by (by rewrite Hv). simpl. split; [done | lia].
Qed.

Lemma chain_lookup (m : nat) (last : option string) (cs : list CreatedPrompt)
    (i : nat) (c : CreatedPrompt) :
  chain m last cs -> cs !! i = Some c ->
  c_version c = Z.of_nat (m + i + 1)
  /\ c_basePromptId c = match i with
                        | O => last
                        | S j => c_id <$> cs !! j
                        end.
Proof.
  revert m last i; induction cs as [|c0 cs IH]; intros m last i Hc Hi; [done|].
  destruct Hc as (Hv & Hb & Hrest). destruct i as [|i]; simpl in Hi.
  - injection Hi as ->. rewrite Nat.add_0_r. done.
  - destruct (IH _ _ _ Hrest Hi) as [Hv' Hb']. split.
    + rewrite Hv'. f_equal. lia.
    + rewrite Hb'. by destruct i.
Qed.

Lemma createPrompt_fresh (prompt : PromptInput) (db : Db) :
  in_id prompt ∉ map p_id (prompts db) ->
  exists c row,
    createPrompt prompt db =
      (inr c, {| prompts := prompts db ++ [row];
                 test_results := test_results db;
                 prompt_analytics := prompt_analytics db |})
    /\ c_id c = in_id prompt /\ c_name c = in_name prompt
    /\ p_id row = in_id prompt /\ p_name row = in_name prompt
    /\ version row = c_version c /\ base_prompt_id row = c_basePromptId c
    /\ c_basePromptId c = p_id <$> latest_named (in_name prompt) (prompts db)
    /\ c_version c = match latest_named (in_name prompt) (prompts db) with
                     | Some e => (version e + 1)%Z
                     | None => 1%Z
                     end.
Proof.
  intros H. unfold createPrompt. rewrite bool_decide_eq_false_2 by done.
  eexists _, _. split; [reflexivity|]. simpl. repeat split; reflexivity.
Qed.

Lemma create_all_chain (N : string) (inputs : list PromptInput) :
  forall (db : Db) (m : nat) (last : option string),
    latest_is N (prompts db) m last ->
    NoDup (map in_id inputs ++ map p_id (prompts db)) ->
    exists created,
      (create_all inputs db).1 = map inr created
      /\ map c_id created = map in_id inputs
      /\ map c_name created = map in_name inputs
      /\ chain m last (filter (fun c => c_name c = N) created).
Proof.
  induction inputs as [|prompt inputs IH]; intros db m last HJ Hnd.
  - exists []. simpl. done.
  - simpl in Hnd. apply NoDup_cons in Hnd as [Hfresh Hnd].
    destruct (createPrompt_fresh prompt db) as
      (c & row & E & Hid & Hname & Hrid & Hrname & Hrv & Hrb & Hbase & Hver).
    { intros Hin. apply Hfresh. apply elem_of_app. by right. }
    assert (Hnd' : NoDup (map in_id inputs ++ map p_id (prompts db ++ [row]))).
    { rewrite map_app. simpl. rewrite Hrid.
      apply NoDup_app in Hnd as (Hn1 & Hn2 & Hn3).
      apply NoDup_app. split; [done|]. split.
      - intros x Hx Hx'. apply elem_of_app in Hx' as [Hx'|Hx'].
        + by apply (Hn2 x).
        + apply list_elem_of_singleton in Hx' as ->.
          apply Hfresh. apply elem_of_app. by left.
      - apply NoDup_app. split; [done|]. split.
        + intros x Hx Hx'. apply list_elem_of_singleton in Hx' as ->.
          apply Hfresh. apply elem_of_app. by right.
        + apply NoDup_singleton. }
    simpl create_all. rewrite E.
    destruct (decide (in_name prompt = N)) as [HN|HN].
    + (* a prompt named N: it becomes the latest *)
      destruct (latest_named_spec N (prompts db) m last HJ) as [Hl Hv].
      rewrite HN in Hbase, Hver. rewrite Hl in Hbase. rewrite Hv in Hver.
      destruct (IH {| prompts := prompts db ++ [row];
                      test_results := test_results db;
                      prompt_analytics := prompt_analytics db |}
                   (S m) (Some (p_id row))) as (created & E' & Hids & Hnames & Hch).
      * right. simpl. rewrite filter_app, filter_cons_True by congruence.
        rewrite filter_nil.
        destruct HJ as [(-> & -> & ->) | (init & r & -> & Hvr & -> & Hinit)].
        -- exists [], row. repeat split; [rewrite Hrv, Hver; f_equal; lia | constructor].
        -- exists (init ++ [r]), row.
           repeat split; [rewrite Hrv, Hver; f_equal; lia |].
           apply Forall_app. split.
           ++ eapply Forall_impl; [exact Hinit | simpl; intros; lia].
           ++ constructor; [lia | constructor].
      * exact Hnd'.
      * destruct (create_all inputs _) as [rs db2]. simpl in E'. subst rs.
        exists (c :: created). simpl. rewrite Hid, Hname, Hids, Hnames.
        repeat split. rewrite filter_cons_True by congruence. simpl.
        repeat split; [done | done |]. by rewrite Hid, <- Hrid.
    + (* another name: the prompts named N are untouched *)
      destruct (IH {| prompts := prompts db ++ [row];
                      test_results := test_results db;
                      prompt_analytics := prompt_analytics db |}
                   m last) as (created & E' & Hids & Hnames & Hch).
      * simpl. unfold latest_is.
        rewrite filter_app, filter_cons_False by congruence.
        rewrite filter_nil, app_nil_r. exact HJ.
      * exact Hnd'.
      * destruct (create_all inputs _) as [rs db2]. simpl in E'. subst rs.
        exists (c :: created). simpl. rewrite Hid, Hname, Hids, Hnames.
        repeat split. by rewrite filter_cons_False by congruence.
Qed.

End VersionFacts.

(** C2: from a store that holds no prompt named [N], creating prompts one
    after the other under fresh ids (whatever their names) succeeds every
    time, and the prompts created under the name [N] get the versions 1, 2,
    3, ... in creation order, the first with no base prompt and each later
    one with the id of the one before it. *)
Theorem createPrompt_versions (N : string) (inputs : list PromptInput) (db : Db) :
  Forall (fun r => p_name r <> N) (prompts db) ->
  NoDup (map in_id inputs ++ map p_id (prompts db)) ->
  created_in_sequence N inputs (create_all inputs db).1.
Proof.
  intros Hnone Hnd.
  destruct (create_all_chain N inputs db 0 None) as (created & E & Hids & Hnames & Hch).
  - left. repeat split. clear Hnd. revert Hnone.
    generalize (prompts db) as rows.
    induction rows as [|r rows IH]; intros Hnone; [reflexivity|].
    apply Forall_cons in Hnone as [Hr Hrest].
    rewrite filter_cons_False by done. auto.
  - exact Hnd.
  - exists created. split; [exact E|]. split; [exact Hids|]. split; [exact Hnames|].
    intros i c Hi. exact (chain_lookup _ _ _ _ _ Hch Hi).
Qed.

Example sample_versions :
  map (fun r => (p_id r, p_name r, version r, base_prompt_id r)) (prompts sample_db)
  = [("p1", "A", 1%Z, None); ("p2", "B", 1%Z, None);
     ("p3", "A", 2%Z, Some "p1"); ("p4", "A", 3%Z, Some "p3")].
Proof. vm_compute. reflexivity. Qed.

Lemma createPrompt_versions_witness :
  created_in_sequence "A" sample_inputs (create_all sample_inputs empty_db).1.
Proof.
  apply createPrompt_versions.
  - constructor.
  - apply (bool_decide_unpack _). vm_compute. exact I.
Defined.

(** ** Deleting a prompt *)

Section DeleteFacts.

Lemma filter_not_elem_of_map {A : Type} (f : A -> string) (id : string) (l : list A) :
  id ∉ map f (filter (fun x => f x <> id) l).
Proof.
  intros H. apply list_elem_of_fmap in H as (x & -> & Hx).
  apply list_elem_of_filter in Hx as [Hx _]. by apply Hx.
Qed.

(** The two outcomes of [deletePrompt]. *)
Lemma deletePrompt_cases (id : string) (db : Db) :
  deletePrompt id db =
    (inl FOREIGN_KEY_failed, delete_test_results id db)
  \/ deletePrompt id db =
    (inr tt, {| prompts := filter (fun r => p_id r <> id) (prompts db);
                test_results := filter (fun tr => prompt_id tr <> id) (test_results db);
                prompt_analytics := prompt_analytics db |}).
Proof.
  unfold deletePrompt, delete_prompt_row.
  destruct (_ && _); [by left | by right].
Qed.

Lemma FOREIGN_KEY_failed_matches :
  includes (message FOREIGN_KEY_failed) "FOREIGN KEY constraint failed" = true.
Proof. reflexivity. Qed.

End DeleteFacts.

(** C8: [deletePrompt] first deletes the test results of the prompt, then
    the prompt row.  When it succeeds the store holds neither the prompt
    nor any test result of it, the other rows are kept, and the endpoint
    answers 200.  When it fails with a foreign-key error the endpoint
    answers 400 with the message about dependent data. *)
Theorem deletePrompt_cascades (id : string) (db : Db) :
  deletePrompt id db = delete_prompt_row id (delete_test_results id db)
  /\ (forall db',
        deletePrompt id db = (inr tt, db') ->
        prompts db' = filter (fun r => p_id r <> id) (prompts db)
        /\ test_results db' = filter (fun tr => prompt_id tr <> id) (test_results db)
        /\ (id ∉ map p_id (prompts db'))
        /\ (id ∉ map prompt_id (test_results db'))
        /\ delete_prompt_endpoint id db = ({| code := 200; error_text := None |}, db'))
  /\ (forall error db',
        deletePrompt id db = (inl error, db') ->
        includes (message error) "FOREIGN KEY constraint failed" = true ->
        (delete_prompt_endpoint id db).1 = dependent_data_response).
Proof.
  split; [reflexivity|]. split.
  - intros db' H. unfold delete_prompt_endpoint. rewrite H.
    destruct (deletePrompt_cases id db) as [E|E]; rewrite E in H; [discriminate|].
    injection H as <-. simpl. repeat split; apply filter_not_elem_of_map.
  - intros error db' H Hmsg. unfold delete_prompt_endpoint. rewrite H, Hmsg. reflexivity.
Qed.

(** Deleting p4, the latest version of A, succeeds and takes its test
    result along; deleting p1, which p3 is based on, is refused with 400. *)
Lemma deletePrompt_cascades_witness :
  (("p4" ∉ map p_id (prompts (deletePrompt "p4" sample_db).2))
   /\ ("p4" ∉ map prompt_id (test_results (deletePrompt "p4" sample_db).2))
   /\ (delete_prompt_endpoint "p4" sample_db).1 = {| code := 200; error_text := None |})
  /\ (delete_prompt_endpoint "p1" sample_db).1 = dependent_data_response.
Proof.
  split.
  - destruct (deletePrompt_cascades "p4" sample_db) as (_ & Hok & _).
    destruct (Hok (deletePrompt "p4" sample_db).2) as (_ & _ & Hp & Ht & He).
    + vm_compute. reflexivity.
    + split; [exact Hp|]. split; [exact Ht|]. by rewrite He.
  - destruct (deletePrompt_cascades "p1" sample_db) as (_ & _ & Hfail).
    apply (Hfail FOREIGN_KEY_failed (deletePrompt "p1" sample_db).2).
    + vm_compute. reflexivity.
    + reflexivity.
Defined.

(** C9: when [deletePrompt] fails, the error is the foreign-key error of the
    second statement; the prompts are unchanged, but the test results of
    the prompt are gone, and the endpoint leaves the store in that state:
    if the prompt had test results, the store has changed. *)
Theorem deletePrompt_failure_is_not_atomic (id : string) (db db' : Db) (error : JsError) :
  deletePrompt id db = (inl error, db') ->
  error = FOREIGN_KEY_failed
  /\ prompts db' = prompts db
  /\ test_results db' = filter (fun tr => prompt_id tr <> id) (test_results db)
  /\ (delete_prompt_endpoint id db).2 = db'
  /\ (Exists (fun tr => prompt_id tr = id) (test_results db) -> db' <> db).
Proof.
  intros H.
  assert (Hend : (delete_prompt_endpoint id db).2 = db').
  { unfold delete_prompt_endpoint. rewrite H. by destruct (includes _ _). }
  destruct (deletePrompt_cases id db) as [E|E]; rewrite E in H; [|discriminate].
  injection H as <- <-. repeat split; [exact Hend|].
  intros Hex Heq. apply Exists_exists in Hex as (tr & Hin & Hid).
  apply (f_equal test_results) in Heq. simpl in Heq.
  rewrite <- Heq in Hin. apply list_elem_of_filter in Hin as [Hne _]. by apply Hne.
Qed.

(** p1 has two test results and p3 is based on it: deleting p1 fails, and
    both test results are lost. *)
Lemma deletePrompt_failure_witness :
  (deletePrompt "p1" sample_db).1 = inl FOREIGN_KEY_failed
  /\ map tr_id (test_results sample_db) = ["t1"; "t2"; "t3"]
  /\ map tr_id (test_results (deletePrompt "p1" sample_db).2) = ["t3"]
  /\ (deletePrompt "p1" sample_db).2 <> sample_db.
Proof.
  destruct (deletePrompt_failure_is_not_atomic "p1" sample_db
              (deletePrompt "p1" sample_db).2 FOREIGN_KEY_failed)
    as (_ & _ & Ht & _ & Hne).
  - vm_compute. reflexivity.
  - split; [vm_compute; reflexivity|]. split; [vm_compute; reflexivity|].
    split; [rewrite Ht; vm_compute; reflexivity|].
    apply Hne. apply (bool_decide_unpack _). vm_compute. exact I.
Defined.

(** ** Success rate *)

Section AnalyticsFacts.







End AnalyticsFacts.


Lemma reachable_create_all (inputs : list PromptInput) (db : Db) :
  reachable db -> reachable (create_all inputs db).2.
Proof.
  revert db; induction inputs as [|prompt inputs IH]; intros db H; [exact H|].
  simpl. pose proof (reach_createPrompt prompt db H) as H1.
  destruct (createPrompt prompt db) as [r db1].
  specialize (IH db1 H1). by destruct (create_all inputs db1).
Qed.

Lemma sample_db_reachable : reachable sample_db.
Proof.
  unfold sample_db. cbv zeta.
  do 3 apply reach_createTestResult.
  apply reachable_create_all, reach_empty.
Qed.

Example sample_analytics :
  map (fun r => (d_date r, d_total_tests r, Qred <$> d_success_rate r))
      (getPromptAnalytics iso_date "p1" None None sample_db)
  = [(Some "2024-05-02", 1, Some 100%Q); (Some "2024-05-01", 1, Some 100%Q)]
  /\ map (fun r => (o_prompt_id r, o_total_tests r, Qred <$> o_success_rate r))
         (getOverallAnalytics sample_db)
     = [("p1", 2, Some 100%Q); ("p4", 1, Some 100%Q); ("p2", 0, None); ("p3", 0, None)].
Proof. split; vm_compute; reflexivity. Qed.


(** * Further properties of the code *)

#[local] Set Warnings "-clear-no-such-hyp".

(** ** Trimming *)

Section TrimIdempotent.

Lemma trimStart_visible_head (s : string) : visible_head (trimStart s).
Proof. by destruct (trimStart_spec s) as (ws & _ & _ & H). Qed.

Lemma trimStart_fixed (s : string) : visible_head s -> trimStart s = s.
Proof. destruct s as [|c s]; [done|]. simpl. by intros ->. Qed.

Lemma trimEnd_visible_last (s : string) : visible_last (trimEnd s).
Proof. by destruct (trimEnd_spec s) as (ws & _ & _ & H). Qed.

Lemma trimEnd_fixed (s : string) : visible_last s -> trimEnd s = s.
Proof.
  induction s as [|c s IH]; intros H; [reflexivity|].
  rewrite trimEnd_cons, IH.
  - destruct s as [|d s]; [|reflexivity].
    by rewrite (H "" c eq_refl).
  - intros t c' ->. apply (H (String c t) c'). by rewrite append_cons.
Qed.

Lemma trimEnd_visible_head (s : string) : visible_head s -> visible_head (trimEnd s).
Proof.
  destruct s as [|c s]; [done|]. simpl. intros Hc.
  destruct (trimEnd s); [by rewrite Hc | done].
Qed.

Lemma visible_last_suffix (a b : string) : visible_last (a +:+ b) -> visible_last b.
Proof.
  intros H t c ->. apply (H (a +:+ t) c). by rewrite append_assoc.
Qed.

Lemma trim_visible (s : string) : visible_head (trim s) /\ visible_last (trim s).
Proof.
  unfold trim. split.
  - apply trimEnd_visible_head, trimStart_visible_head.
  - apply trimEnd_visible_last.
Qed.

Lemma trim_fixed (s : string) : visible_head s -> visible_last s -> trim s = s.
Proof. intros Hh Hl. unfold trim. by rewrite trimStart_fixed, trimEnd_fixed. Qed.

Lemma trim_idempotent (s : string) : trim (trim s) = trim s.
Proof. destruct (trim_visible s). by apply trim_fixed. Qed.

(** After the white space at its head is dropped, the rest of a text that
    ends with a visible character is a trimmed text. *)
Lemma trim_trimStart_suffix (pre u : string) :
  visible_last (pre +:+ u) -> trim (trimStart u) = trimStart u.
Proof.
  intros H. apply trim_fixed; [apply trimStart_visible_head|].
  destruct (trimStart_spec u) as (ws & E & _ & _).
  apply (visible_last_suffix ws). rewrite <- E. by apply (visible_last_suffix pre).
Qed.

End TrimIdempotent.

(** ** Insights are trimmed or long *)

Section InsightShape.

Lemma after_digits_suffix (s rest : string) :
  after_digits s = Some rest -> exists pre, s = pre +:+ rest.
Proof.
  revert rest; induction s as [|c s IH]; intros rest H; [discriminate|].
  simpl in H. destruct (is_digit c).
  - destruct (IH _ H) as [pre ->]. by exists (String c pre).
  - destruct (Ascii.eqb c "."); [|discriminate].
    injection H as ->. by exists (String c "").
Qed.

Lemma match_numbered_suffix (s rest : string) :
  match_numbered s = Some rest -> exists pre, s = pre +:+ rest.
Proof.
  destruct s as [|c s]; [discriminate|]. simpl.
  destruct (is_digit c); [|discriminate]. intros H.
  destruct (after_digits_suffix _ _ H) as [pre ->]. by exists (String c pre).
Qed.

(** What is left of a trimmed marked line is itself trimmed. *)
Lemma strip_marker_trimmed (t : string) :
  visible_last t -> is_marked t = true -> trim (strip_marker t) = strip_marker t.
Proof.
  intros Hl Hm. destruct t as [|c t]; [discriminate|].
  unfold strip_marker.
  destruct (Ascii.eqb c "-" || Ascii.eqb c "*") eqn:E.
  - apply (trim_trimStart_suffix (String c "")). exact Hl.
  - destruct (match_numbered (String c t)) as [rest|] eqn:En.
    + destruct (match_numbered_suffix _ _ En) as [pre Epre].
      apply (trim_trimStart_suffix pre). by rewrite <- Epre.
    + exfalso. unfold is_marked, startsWith, test_numbered in Hm. rewrite En in Hm.
      apply orb_false_iff in E as [E1 E2].
      rewrite orb_false_r in Hm. apply orb_true_iff in Hm as [Hm|Hm];
        apply prefix_iff in Hm as [suf Hm]; rewrite append_cons in Hm;
        injection Hm as -> _; discriminate.
Qed.

End InsightShape.

(** X1: when the text has marked lines, every insight is a trimmed text (no
    white space at either end); otherwise every insight is a paragraph
    whose trimmed length exceeds 50, returned as it stands in the text. *)
Theorem extractInsights_shape (response x : string) :
  x ∈ extractInsights response ->
  (bullet_lines response <> [] /\ trim x = x)
  \/ (bullet_lines response = [] /\ 50 < String.length (trim x)
      /\ x ∈ split response (LF +:+ LF)).
Proof.
  rewrite extractInsights_unfold. intros Hx.
  destruct (bullet_lines response) as [|b bs] eqn:E.
  - right. split; [done|].
    apply subseteq_take in Hx.
    apply list_elem_of_filter in Hx as [Hlen Hin]. by split.
  - left. split; [done|].
    apply subseteq_take in Hx. rewrite <- E in Hx.
    unfold bullet_lines, marked_lines in Hx.
    apply list_elem_of_fmap in Hx as (t & -> & Ht).
    apply list_elem_of_filter in Ht as [Hm Ht].
    apply list_elem_of_fmap in Ht as (line & -> & _).
    apply strip_marker_trimmed; [apply trim_visible | exact Hm].
Qed.

Lemma extractInsights_shape_witness :
  (bullet_lines mixed_text <> [] /\ trim "second" = "second")
  \/ (bullet_lines mixed_text = [] /\ 50 < String.length (trim "second")
      /\ "second" ∈ split mixed_text (LF +:+ LF)).
Proof.
  apply (extractInsights_shape mixed_text "second").
  vm_compute. apply list_elem_of_further, list_elem_of_here.
Defined.

(** ** Confidence: letter case and longer texts *)

Section ConfidenceOrder.

Lemma length_toLowerCase (s : string) : String.length (toLowerCase s) = String.length s.
Proof. induction s as [|c s IH]; simpl; [reflexivity | by rewrite IH]. Qed.

Lemma lower_char_idempotent (c : ascii) : lower_char (lower_char c) = lower_char c.
Proof. destruct c as [[] [] [] [] [] [] [] []]; reflexivity. Qed.

Lemma toLowerCase_idempotent (s : string) : toLowerCase (toLowerCase s) = toLowerCase s.
Proof.
  induction s as [|c s IH]; simpl; [reflexivity|].
  by rewrite lower_char_idempotent, IH.
Qed.

Lemma caseless_LF : caseless (ascii_of_nat 10).
Proof. intros [[] [] [] [] [] [] [] []]; reflexivity. Qed.

Lemma caseless_dash : caseless "-".
Proof. intros [[] [] [] [] [] [] [] []]; reflexivity. Qed.

Lemma caseless_one : caseless "1".
Proof. intros [[] [] [] [] [] [] [] []]; reflexivity. Qed.

Lemma caseless_dot : caseless ".".
Proof. intros [[] [] [] [] [] [] [] []]; reflexivity. Qed.

Lemma prefix_cons (x c : ascii) (sub s : string) :
  String.prefix (String x sub) (String c s) = Ascii.eqb x c && String.prefix sub s.
Proof.
  simpl. destruct (ascii_dec x c) as [->|Hne].
  - by rewrite Ascii.eqb_refl.
  - by rewrite (proj2 (Ascii.eqb_neq x c) Hne).
Qed.

Lemma prefix_toLowerCase (sub s : string) :
  all_caseless sub -> String.prefix sub (toLowerCase s) = String.prefix sub s.
Proof.
  revert s; induction sub as [|x sub IH]; intros s H.
  - by destruct s.
  - destruct H as [Hx Hsub]. destruct s as [|c s]; [reflexivity|].
    change (toLowerCase (String c s)) with (String (lower_char c) (toLowerCase s)).
    by rewrite !prefix_cons, Hx, IH.
Qed.

Lemma includes_toLowerCase (sub s : string) :
  all_caseless sub -> includes (toLowerCase s) sub = includes s sub.
Proof.
  intros H. induction s as [|c s IH].
  - reflexivity.
  - change (toLowerCase (String c s)) with (String (lower_char c) (toLowerCase s)).
    rewrite !includes_cons, <- IH. f_equal.
    apply (prefix_toLowerCase sub (String c s) H).
Qed.

Lemma occurs_append_r (sub s t : string) : occurs sub s -> occurs sub (s +:+ t).
Proof.
  intros (pre & suf & ->). exists pre, (suf +:+ t). by rewrite !append_assoc.
Qed.

Lemma occurs_append_l (sub s t : string) : occurs sub s -> occurs sub (t +:+ s).
Proof.
  intros (pre & suf & ->). exists (t +:+ pre), suf. by rewrite !append_assoc.
Qed.

Lemma length_filter_mono {A : Type} (P Q : A -> Prop)
    `{!forall x, Decision (P x)} `{!forall x, Decision (Q x)} (l : list A) :
  (forall x, P x -> Q x) -> length (filter P l) <= length (filter Q l).
Proof.
  intros HPQ. induction l as [|x l IH]; [done|].
  rewrite !filter_cons. destruct (decide (P x)) as [HP|HP].
  - rewrite decide_True by auto. simpl. lia.
  - destruct (decide (Q x)); simpl; lia.
Qed.

(** More bonuses never give a lower score. *)
Lemma score_monotone (b1 b2 b3 c1 c2 c3 : bool) (k m : nat) :
  (b1 = true -> c1 = true) -> (b2 = true -> c2 = true) -> (b3 = true -> c3 = true) ->
  k <= m -> m <= 5 ->
  PrimFloat.leb (score b1 b2 b3 k) (score c1 c2 c3 m) = true.
Proof.
  intros H1 H2 H3 Hk Hm.
  assert (Hm' : m = 0 \/ m = 1 \/ m = 2 \/ m = 3 \/ m = 4 \/ m = 5) by lia.
  assert (Hk' : k = 0 \/ k = 1 \/ k = 2 \/ k = 3 \/ k = 4 \/ k = 5) by lia.
  destruct b1, c1; try (specialize (H1 eq_refl); discriminate);
  destruct b2, c2; try (specialize (H2 eq_refl); discriminate);
  destruct b3, c3; try (specialize (H3 eq_refl); discriminate);
  destruct Hm' as [->|[->|[->|[->|[->| ->]]]]];
  destruct Hk' as [->|[->|[->|[->|[->| ->]]]]];
  first [lia | vm_compute; reflexivity].
Qed.

End ConfidenceOrder.

(** X2: the confidence does not depend on the case of the letters. *)
Theorem calculateConfidence_caseless (response : string) :
  calculateConfidence (toLowerCase response) = calculateConfidence response.
Proof.
  unfold calculateConfidence.
  rewrite length_toLowerCase, toLowerCase_idempotent.
  rewrite !includes_toLowerCase; [reflexivity | | |].
  - split; [apply caseless_one | split; [apply caseless_dot | exact I]].
  - split; [apply caseless_dash | exact I].
  - split; [apply caseless_LF | exact I].
Qed.

(** X3: text added before or after a response never lowers its confidence. *)
Theorem calculateConfidence_grows (before response after : string) :
  PrimFloat.leb (calculateConfidence response)
                (calculateConfidence (before +:+ response +:+ after)) = true.
Proof.
  rewrite !calculateConfidence_score.
  assert (Hlen : String.length response
                 <= String.length (before +:+ response +:+ after)).
  { rewrite !length_append. lia. }
  assert (Hocc : forall sub, occurs sub response ->
                             occurs sub (before +:+ response +:+ after)).
  { intros sub H. by apply occurs_append_l, occurs_append_r. }
  apply score_monotone.
  - intros H. apply bool_decide_eq_true in H. apply bool_decide_eq_true. lia.
  - intros H. apply bool_decide_eq_true in H. apply bool_decide_eq_true. lia.
  - intros H. apply bool_decide_eq_true in H. apply bool_decide_eq_true.
    destruct H as [H|[H|H]]; [left | right; left | right; right]; by apply Hocc.
  - apply length_filter_mono. intros kw (pre & t & suf & -> & Ht).
    exists (before +:+ pre), t, (suf +:+ after). split; [|exact Ht].
    by rewrite !append_assoc.
  - apply keyword_hits_le.
Qed.

(** ** The wizard state *)

(** X4: excluding a question and including it again (or the reverse) gives
    the set of exclusions back; one toggle flips the question and leaves
    every other question as it was. *)
Theorem toggleQuestionExclusion_twice (questionId : string) (prev : gset string) :
  toggleQuestionExclusion questionId (toggleQuestionExclusion questionId prev) = prev
  /\ (questionId ∈ toggleQuestionExclusion questionId prev <-> questionId ∉ prev)
  /\ (forall other, other <> questionId ->
        (other ∈ toggleQuestionExclusion questionId prev <-> other ∈ prev)).
Proof.
  unfold toggleQuestionExclusion.
  destruct (decide (questionId ∈ prev)) as [Hin|Hout].
  - rewrite decide_False by set_solver. split; [|split].
    + apply set_eq. intros x. destruct (decide (x = questionId)); set_solver.
    + set_solver.
    + intros other Hne. set_solver.
  - rewrite decide_True by set_solver. split; [|split].
    + apply set_eq. intros x. destruct (decide (x = questionId)); set_solver.
    + set_solver.
    + intros other Hne. set_solver.
Qed.

Section CheckboxFacts.

Lemma filter_ne_app (option : string) (xs : list string) :
  option ∉ xs -> filter (fun item => item <> option) (xs ++ [option]) = xs.
Proof.
  intros H. rewrite filter_app, filter_cons_False, filter_nil, app_nil_r by (by intros []).
  induction xs as [|x xs IH]; [reflexivity|].
  apply not_elem_of_cons in H as [Hx Hxs].
  rewrite filter_cons_True by congruence. by rewrite IH.
Qed.

End CheckboxFacts.

(** X5: ticking a box that was clear and clearing it again stores the
    earlier selection as a list: a question without an answer is left with
    the empty list, not without answer, and the compiler then writes the
    line [- <question text>: ] for it. *)
Theorem tick_and_clear (questionId option : string) (answers : gmap string Answer) :
  option ∉ current_selection answers questionId ->
  onCheckboxChange questionId option false
    (onCheckboxChange questionId option true answers)
  = <[ questionId := AList (current_selection answers questionId) ]> answers
  /\ (forall excludedQuestions question,
        q_id question = questionId ->
        questionId ∉ excludedQuestions ->
        answers !! questionId = None ->
        line_of excludedQuestions
          (onCheckboxChange questionId option false
             (onCheckboxChange questionId option true answers)) question
        = answer_line question "").
Proof.
  intros Hfree.
  assert (E : onCheckboxChange questionId option false
                (onCheckboxChange questionId option true answers)
              = <[ questionId := AList (current_selection answers questionId) ]> answers).
  { unfold onCheckboxChange, handleAnswerChange.
    unfold current_selection at 1. rewrite lookup_insert_eq.
    rewrite filter_ne_app by done. apply insert_insert_eq. }
  split; [exact E|].
  intros excludedQuestions question Hq Hex Hnone. rewrite E.
  rewrite (line_of_list excludedQuestions _ question []).
  - reflexivity.
  - by rewrite Hq.
  - rewrite Hq, lookup_insert_eq. unfold current_selection. by rewrite Hnone.
Qed.

Lemma tick_and_clear_witness :
  onCheckboxChange "q1" "EU" false (onCheckboxChange "q1" "EU" true ∅)
  = <[ "q1" := AList (current_selection ∅ "q1") ]> ∅
  /\ line_of ∅ (onCheckboxChange "q1" "EU" false (onCheckboxChange "q1" "EU" true ∅))
       markets_question
     = answer_line markets_question "".
Proof.
  destruct (tick_and_clear "q1" "EU" ∅) as [E L].
  - unfold current_selection. rewrite lookup_empty. apply not_elem_of_nil.
  - split; [exact E|].
    apply L; [reflexivity | apply not_elem_of_empty | apply lookup_empty].
Defined.

(** X6: whatever is typed, added and removed in the tag editor, the tags of
    the prompt stay free of duplicates, non-empty and trimmed. *)
Theorem tags_stay_ok (events : list TagEvent) : tags_ok (promptTags (tag_run events)).
Proof.
  unfold tag_run.
  assert (H0 : tags_ok (promptTags {| promptTags := []; tagInput := "" |})).
  { split; [constructor | intros t Ht; by apply not_elem_of_nil in Ht]. }
  revert H0. generalize {| promptTags := []; tagInput := "" |} as st.
  induction events as [|e events IH]; intros st Hst; [exact Hst|].
  simpl. apply IH. destruct Hst as [Hnd Hall].
  destruct e as [text| |tag]; simpl.
  - by split.
  - unfold addTag.
    destruct (truthy (trim (tagInput st))) eqn:Et; [|by split].
    case_bool_decide as Hin; [by split|]. simpl. split.
    + apply NoDup_app. split; [done|]. split; [|apply NoDup_singleton].
      intros x Hx Hx'. apply list_elem_of_singleton in Hx' as ->. done.
    + intros t Ht. apply elem_of_app in Ht as [Ht|Ht]; [auto|].
      apply list_elem_of_singleton in Ht as ->. split.
      * intros E. by rewrite E in Et.
      * apply trim_idempotent.
  - split.
    + by apply NoDup_filter.
    + intros t Ht. apply list_elem_of_filter in Ht as [_ Ht]. auto.
Qed.

(** X7: the generated prompt depends on the answers only through the
    questions that are listed and not excluded. *)
Theorem generatePrompt_frame (promptName : string) (questions : list Question)
    (excludedQuestions : gset string) (answers answers' : gmap string Answer) :
  (forall question, question ∈ questions ->
     q_id question ∉ excludedQuestions ->
     answers !! q_id question = answers' !! q_id question) ->
  generatePrompt promptName questions excludedQuestions answers
  = generatePrompt promptName questions excludedQuestions answers'.
Proof.
  intros H. unfold generatePrompt. rewrite !foldl_visit_question. do 3 f_equal.
  apply map_ext_in. intros question Hq. apply list_elem_of_In in Hq.
  unfold line_of, visit_question.
  destruct (decide (q_id question ∈ excludedQuestions)); [reflexivity|].
  by rewrite (H question Hq).
Qed.

Lemma generatePrompt_frame_witness :
  generatePrompt "Shops" [markets_question] ∅ cleared_answers
  = generatePrompt "Shops" [markets_question] ∅ (<[ "q2" := AText "x" ]> cleared_answers).
Proof.
  apply generatePrompt_frame. intros question Hq _.
  apply list_elem_of_singleton in Hq as ->. simpl.
  by rewrite lookup_insert_ne.
Defined.

(** ** The completion call and the replies of [/api/test] *)

(** X8: whatever the completion service does, the loop sends exactly one
    request and its outcome depends on the first answer only: a completion
    is returned, an error other than a rate limit is thrown as it is, and a
    rate limit leads to one sleep of 2000 ms and the [TypeError]. *)
Theorem call_with_retries_single_request (upstream : Upstream) :
  (exists content,
      upstream 0 = Completed content
      /\ call_with_retries upstream = Some (Returned content, [Request]))
  \/ (exists error,
        upstream 0 = Rejected error /\ status error <> Some 429%Z
        /\ call_with_retries upstream = Some (Thrown error, [Request]))
  \/ (exists error,
        upstream 0 = Rejected error /\ status error = Some 429%Z
        /\ call_with_retries upstream
           = Some (Thrown TypeError_const, [Request; Sleep 2000])).
Proof.
  destruct (upstream 0) as [content|error] eqn:E.
  - left. exists content. split; [done|]. by apply first_call_completed.
  - destruct (decide (status error = Some 429%Z)) as [Hs|Hs].
    + right; right. exists error. repeat split; [done|].
      by apply (first_rate_limit_throws upstream error).
    + right; left. exists error. repeat split; [done|].
      by apply other_error_aborts.
Qed.

Section ReplyFacts.

Lemma error_response_codes (error : JsError) :
  (error_response error).1 ∈ [401; 429; 402; 500]%Z.
Proof.
  unfold error_response.
  repeat match goal with
         | |- context [if ?b then _ else _] => destruct b
         end; simpl; set_solver.
Qed.

Lemma error_reply_inv {A : Type} (error : JsError) :
  exists code text,
    @error_reply A error = Error code text (Some (message error))
    /\ code ∈ error_codes.
Proof.
  unfold error_reply. pose proof (error_response_codes error) as H.
  destruct (error_response error) as [code text]. exists code, text.
  split; [reflexivity|]. unfold error_codes. simpl in H. set_solver.
Qed.

End ReplyFacts.

(** X9: an error with status 429 is answered 429 with the rate-limit text
    whenever its message does not contain UNAUTHORIZED, also when the
    message names [insufficient_quota]; the 402 reply is given only to
    errors whose status is neither 401 nor 429. *)
Theorem rate_limit_status_comes_first (error : JsError) :
  (status error = Some 429%Z ->
   includes (message error) "UNAUTHORIZED" = false ->
   error_response error
   = (429%Z, "OpenAI API rate limit exceeded. Please try again in a few minutes."))
  /\ ((error_response error).1 = 402%Z ->
      status error <> Some 401%Z /\ status error <> Some 429%Z
      /\ includes (message error) "insufficient_quota" = true)
  /\ (error_response error).1 ∈ [401; 429; 402; 500]%Z.
Proof.
  split; [|split; [|apply error_response_codes]].
  - intros Hs Hm. unfold error_response. rewrite Hm, orb_false_r.
    rewrite bool_decide_eq_false_2 by (rewrite Hs; discriminate).
    by rewrite bool_decide_eq_true_2.
  - unfold error_response.
    destruct (bool_decide (status error = Some 401%Z)) eqn:E1; simpl.
    { discriminate. }
    destruct (includes (message error) "UNAUTHORIZED"); [discriminate|].
    destruct (bool_decide (status error = Some 429%Z)) eqn:E2; simpl.
    { discriminate. }
    destruct (includes (message error) "rate limit"); [discriminate|].
    destruct (includes (message error) "insufficient_quota") eqn:E3.
    + intros _. apply bool_decide_eq_false in E1, E2. done.
    + destruct (includes (message error) "invalid_api_key"); discriminate.
Qed.

Lemma rate_limit_status_witness :
  error_response quota_error
  = (429%Z, "OpenAI API rate limit exceeded. Please try again in a few minutes.")
  /\ includes (message quota_error) "insufficient_quota" = true.
Proof.
  split; [|reflexivity].
  apply (proj1 (rate_limit_status_comes_first quota_error)); reflexivity.
Defined.

(** ** [/api/test] as a whole *)

Section TestEndpointFacts.

(** The two outcomes of [createTestResult]. *)
Lemma createTestResult_cases (now : string) (testResult : TestResultInput) (db : Db) :
  (exists error, createTestResult now testResult db = (inl error, db))
  \/ (exists row,
        createTestResult now testResult db
        = (inr testResult,
           {| prompts := prompts db;
              test_results := test_results db ++ [row];
              prompt_analytics := prompt_analytics db |})
        /\ (t_id testResult ∉ map tr_id (test_results db))
        /\ (t_promptId testResult ∈ map p_id (prompts db))
        /\ tr_id row = t_id testResult
        /\ prompt_id row = t_promptId testResult
        /\ prompt_name row = t_promptName testResult
        /\ prompt_version row = default 1%Z (t_promptVersion testResult)
        /\ result_insights row = default [] (r_insights (t_result testResult))
        /\ confidence row = r_confidence (t_result testResult)
        /\ chatgpt_response row = r_chatGPTResponse (t_result testResult)
        /\ model row = r_model (t_result testResult)
        /\ timestamp row = or_string (t_timestamp testResult) now
        /\ success row = 1%Z /\ error_message row = None).
Proof.
  unfold createTestResult.
  case_bool_decide as Hid; [left; eauto|].
  case_bool_decide as Hfk; [|left; eauto].
  right. eexists. split; [reflexivity|]. simpl. repeat split; done.
Qed.

Lemma getPrompt_Some (id : string) (db : Db) (row : PromptRow) :
  getPrompt id db = Some row -> row ∈ prompts db /\ p_id row = id.
Proof.
  unfold getPrompt. intros H. apply head_Some in H as [rest H].
  assert (Hin : row ∈ filter (fun r => p_id r = id) (prompts db)).
  { rewrite H. by left. }
  apply list_elem_of_filter in Hin as [Hid Hin]. done.
Qed.

Lemma getPrompt_None (id : string) (db : Db) :
  getPrompt id db = None <-> id ∉ map p_id (prompts db).
Proof.
  unfold getPrompt. rewrite head_None. split.
  - intros H Hin. apply list_elem_of_fmap in Hin as (row & -> & Hrow).
    assert (Hf : row ∈ filter (fun r => p_id r = p_id row) (prompts db)).
    { by apply list_elem_of_filter. }
    rewrite H in Hf. by apply not_elem_of_nil in Hf.
  - intros H. destruct (filter _ _) as [|row rest] eqn:E; [done|]. exfalso.
    assert (Hf : row ∈ filter (fun r => p_id r = id) (prompts db)).
    { rewrite E. by left. }
    apply list_elem_of_filter in Hf as [Hid Hin]. apply H.
    apply list_elem_of_fmap. exists row. done.
Qed.

(** The ways [/api/test] can end. *)
Lemma test_endpoint_cases (env : Env) (uuid now : string) (processingTime : Z)
    (api : ChatRequest -> Upstream) (promptId : string) (jsonData : Payload) (db : Db) :
  (exists code text details,
      test_endpoint env uuid now processingTime api promptId jsonData db
      = (Error code text details, db)
      /\ code ∈ error_codes
      /\ (code = 404%Z <-> getPrompt promptId db = None))
  \/ (exists prompt chatGPTResponse row,
        getPrompt promptId db = Some prompt
        /\ api (chat_request env prompt jsonData) 0 = Completed chatGPTResponse
        /\ test_endpoint env uuid now processingTime api promptId jsonData db
           = (Json (test_result env uuid now processingTime prompt promptId jsonData
                                chatGPTResponse),
              {| prompts := prompts db;
                 test_results := test_results db ++ [row];
                 prompt_analytics := prompt_analytics db |})
        /\ tr_id row = uuid /\ prompt_id row = promptId
        /\ prompt_name row = p_name prompt
        /\ prompt_version row = (if (version prompt =? 0)%Z then 1%Z else version prompt)
        /\ result_insights row = extractInsights chatGPTResponse
        /\ confidence row = calculateConfidence chatGPTResponse
        /\ chatgpt_response row = chatGPTResponse
        /\ model row = or_string (OPENAI_MODEL env) "gpt-3.5-turbo"
        /\ timestamp row = now
        /\ success row = 1%Z).
Proof.
  unfold test_endpoint.
  destruct (getPrompt promptId db) as [prompt|] eqn:Eg.
  2:{ left. exists 404%Z, "Prompt not found", None.
      split; [reflexivity|]. split; [unfold error_codes; set_solver | done]. }
  assert (Hfail : forall error : JsError,
            exists code text details,
              (@error_reply TestResultInput error, db) = (Error code text details, db)
              /\ code ∈ error_codes
              /\ (code = 404%Z <-> Some prompt = None)).
  { intros error. unfold error_reply.
    pose proof (error_response_codes error) as Hc.
    destruct (error_response error) as [code text]. simpl in Hc.
    exists code, text, (Some (message error)).
    split; [reflexivity|]. split; [unfold error_codes; set_solver|].
    split; [|discriminate]. intros ->. exfalso. set_solver. }
  destruct (call_with_retries_total Const (api (chat_request env prompt jsonData)))
    as [[outcome trace] Ec].
  change (run_retries Const) with call_with_retries in Ec. rewrite Ec.
  destruct outcome as [chatGPTResponse|error]; [|left; apply Hfail].
  assert (Hfirst : api (chat_request env prompt jsonData) 0 = Completed chatGPTResponse).
  { destruct (api (chat_request env prompt jsonData) 0) as [content|error] eqn:E0.
    - rewrite (first_call_completed _ _ E0) in Ec. congruence.
    - destruct (decide (status error = Some 429%Z)) as [Hs|Hs].
      + rewrite (first_rate_limit_throws _ _ E0 Hs) in Ec. discriminate.
      + rewrite (other_error_aborts _ _ E0 Hs) in Ec. discriminate. }
  set (testResult := test_result env uuid now processingTime prompt promptId jsonData
                                 chatGPTResponse).
  destruct (createTestResult_cases now testResult db)
    as [[error E]|(row & E & _ & _ & H1 & H2 & H3 & H4 & H5 & H6 & H7 & H8 & H9 & H10 & _)];
    rewrite E.
  - left. apply Hfail.
  - right. exists prompt, chatGPTResponse, row.
    split; [reflexivity|]. split; [exact Hfirst|]. split; [reflexivity|].
    repeat split; try done.
    rewrite H9. simpl. by destruct now.
Qed.

End TestEndpointFacts.

(** X10: [/api/test] records all or nothing.  When it answers with an error
    (one of 404, 401, 429, 402, 500; 404 exactly when the prompt does not
    exist) the store is unchanged.  When it answers with a result, the
    first completion call succeeded and the store has gained exactly one
    test result, for that prompt, with the id, the time stamp and the text
    of the completion. *)
Theorem test_endpoint_all_or_nothing (env : Env) (uuid now : string)
    (processingTime : Z) (api : ChatRequest -> Upstream) (promptId : string)
    (jsonData : Payload) (db : Db) :
  match test_endpoint env uuid now processingTime api promptId jsonData db with
  | (Error code _ _, db') =>
      db' = db /\ code ∈ error_codes
      /\ (code = 404%Z <-> getPrompt promptId db = None)
  | (Json _, db') =>
      exists prompt chatGPTResponse row,
        getPrompt promptId db = Some prompt
        /\ api (chat_request env prompt jsonData) 0 = Completed chatGPTResponse
        /\ prompts db' = prompts db
        /\ test_results db' = test_results db ++ [row]
        /\ tr_id row = uuid /\ prompt_id row = promptId
        /\ timestamp row = now /\ chatgpt_response row = chatGPTResponse
  end.
Proof.
  destruct (test_endpoint_cases env uuid now processingTime api promptId jsonData db)
    as [(code & text & details & -> & Hc & H404)
       |(prompt & content & row & Hg & Hfirst & -> & H1 & H2 & _ & _ & _ & _ & H7 & _ & H9 & _)].
  - done.
  - exists prompt, content, row. repeat split; done.
Qed.

(** X11: the test result that [/api/test] stores carries a snapshot of the
    prompt (its name, and its version, 1 standing in for 0), the insights
    and the confidence computed from the completion, at most five insights
    and a confidence between 0.5 and 0.95, and [success = 1]. *)
Theorem test_endpoint_stored_result (env : Env) (uuid now : string)
    (processingTime : Z) (api : ChatRequest -> Upstream) (promptId : string)
    (jsonData : Payload) (db db' : Db) (testResult : TestResultInput) :
  test_endpoint env uuid now processingTime api promptId jsonData db
  = (Json testResult, db') ->
  exists prompt chatGPTResponse row,
    getPrompt promptId db = Some prompt
    /\ last (test_results db') = Some row
    /\ prompt_name row = p_name prompt
    /\ prompt_version row = (if (version prompt =? 0)%Z then 1%Z else version prompt)
    /\ chatgpt_response row = chatGPTResponse
    /\ result_insights row = extractInsights chatGPTResponse
    /\ confidence row = calculateConfidence chatGPTResponse
    /\ length (result_insights row) <= 5
    /\ PrimFloat.leb 0.5 (confidence row) = true
    /\ PrimFloat.leb (confidence row) 0.95 = true
    /\ success row = 1%Z.
Proof.
  intros H.
  destruct (test_endpoint_cases env uuid now processingTime api promptId jsonData db)
    as [(code & text & details & E & _)
       |(prompt & content & row & Hg & _ & E & _ & _ & H3 & H4 & H5 & H6 & H7 & _ & _ & H10)];
    rewrite E in H; [discriminate|].
  injection H as _ <-. exists prompt, content, row.
  split; [exact Hg|]. split; [simpl; apply last_snoc|].
  split; [exact H3|]. split; [exact H4|]. split; [exact H7|].
  split; [exact H5|]. split; [exact H6|].
  pose proof (score_cases (bool_decide (500 < String.length content))
                (bool_decide (1000 < String.length content))
                (bool_decide (structure_markers content))
                (keyword_hits content) (keyword_hits_le content)) as (_ & Hlo & Hhi).
  rewrite <- calculateConfidence_score in Hlo, Hhi.
  split.
  - rewrite H5, extractInsights_unfold.
    destruct (bullet_lines content); rewrite length_take; lia.
  - rewrite H6. done.
Qed.

Lemma test_endpoint_stored_result_witness :
  exists prompt chatGPTResponse row,
    getPrompt "p1" sample_db = Some prompt
    /\ last (test_results sample_reply.2) = Some row
    /\ prompt_name row = p_name prompt
    /\ prompt_version row = (if (version prompt =? 0)%Z then 1%Z else version prompt)
    /\ chatgpt_response row = chatGPTResponse
    /\ result_insights row = extractInsights chatGPTResponse
    /\ confidence row = calculateConfidence chatGPTResponse
    /\ length (result_insights row) <= 5
    /\ PrimFloat.leb 0.5 (confidence row) = true
    /\ PrimFloat.leb (confidence row) 0.95 = true
    /\ success row = 1%Z.
Proof.
  apply (test_endpoint_stored_result sample_env "t9" "2024-05-03T08:00:00.000Z" 1500
           sample_api "p1" sample_payload sample_db sample_reply.2
           (test_result sample_env "t9" "2024-05-03T08:00:00.000Z" 1500
              {| p_id := "p1"; p_name := "A"; base_prompt_id := None; version := 1;
                 p_questions := []; p_answers := ∅;
                 generated_prompt := "Analyze: {data}"; p_tags := [] |}
              "p1" sample_payload scenario_text)).
  vm_compute. reflexivity.
Defined.

(** X12: when [OPENAI_MODEL] is not set, the completion is requested from
    [gpt-4] but the stored result names [gpt-3.5-turbo]; when it is set,
    both are the configured model. *)
Theorem test_endpoint_model_label (env : Env) (uuid now : string)
    (processingTime : Z) (api : ChatRequest -> Upstream) (promptId : string)
    (jsonData : Payload) (db db' : Db) (testResult : TestResultInput) :
  test_endpoint env uuid now processingTime api promptId jsonData db
  = (Json testResult, db') ->
  exists prompt row,
    getPrompt promptId db = Some prompt
    /\ is_Some (match api (chat_request env prompt jsonData) 0 with
                | Completed c => Some c
                | Rejected _ => None
                end)
    /\ last (test_results db') = Some row
    /\ r_model (t_result testResult) = model row
    /\ match OPENAI_MODEL env with
       | Some (String c m) =>
           cr_model (chat_request env prompt jsonData) = String c m
           /\ model row = String c m
       | _ =>
           cr_model (chat_request env prompt jsonData) = "gpt-4"
           /\ model row = "gpt-3.5-turbo"
       end.
Proof.
  intros H.
  destruct (test_endpoint_cases env uuid now processingTime api promptId jsonData db)
    as [(code & text & details & E & _)
       |(prompt & content & row & Hg & Hfirst & E & _ & _ & _ & _ & _ & _ & _ & H8 & _)];
    rewrite E in H; [discriminate|].
  injection H as <- <-. exists prompt, row.
  split; [exact Hg|]. split; [by rewrite Hfirst|].
  split; [simpl; apply last_snoc|]. split; [by rewrite H8|].
  rewrite H8. unfold chat_request. simpl.
  destruct (OPENAI_MODEL env) as [[|c m]|]; done.
Qed.

Lemma test_endpoint_model_label_witness :
  exists prompt row,
    getPrompt "p1" sample_db = Some prompt
    /\ is_Some (match sample_api (chat_request sample_env prompt sample_payload) 0 with
                | Completed c => Some c
                | Rejected _ => None
                end)
    /\ last (test_results sample_reply.2) = Some row
    /\ "gpt-3.5-turbo" = model row
    /\ cr_model (chat_request sample_env prompt sample_payload) = "gpt-4"
    /\ model row = "gpt-3.5-turbo".
Proof.
  destruct (test_endpoint_model_label sample_env "t9" "2024-05-03T08:00:00.000Z" 1500
              sample_api "p1" sample_payload sample_db sample_reply.2
              (test_result sample_env "t9" "2024-05-03T08:00:00.000Z" 1500
                 {| p_id := "p1"; p_name := "A"; base_prompt_id := None; version := 1;
                    p_questions := []; p_answers := ∅;
                    generated_prompt := "Analyze: {data}"; p_tags := [] |}
                 "p1" sample_payload scenario_text))
    as (prompt & row & H1 & H2 & H3 & H4 & H5 & H6).
  - vm_compute. reflexivity.
  - exists prompt, row. repeat split; assumption.
Defined.

(** ** Integrity of the store *)

Section IntegrityFacts.

Lemma max_version_row_None (rows : list PromptRow) :
  max_version_row rows = None -> rows = [].
Proof.
  destruct rows as [|r rows]; [done|]. simpl.
  destruct (max_version_row rows) as [m|]; [|discriminate].
  by destruct (version r <? version m)%Z.
Qed.

Lemma max_version_row_elem (rows : list PromptRow) (m : PromptRow) :
  max_version_row rows = Some m ->
  m ∈ rows /\ forall r, r ∈ rows -> (version r <= version m)%Z.
Proof.
  revert m; induction rows as [|r rows IH]; intros m H; [discriminate|].
  simpl in H. destruct (max_version_row rows) as [m'|] eqn:E.
  - destruct (IH m' eq_refl) as [Hin Hmax].
    destruct (Z.ltb_spec (version r) (version m')) as [Hlt|Hge]; injection H as <-.
    + split; [by right|]. intros x Hx. apply elem_of_cons in Hx as [->|Hx]; [lia | auto].
    + split; [by left|]. intros x Hx. apply elem_of_cons in Hx as [->|Hx]; [lia|].
      specialize (Hmax x Hx). lia.
  - injection H as <-. apply max_version_row_None in E as ->.
    split; [by left|]. intros x Hx. apply list_elem_of_singleton in Hx as ->. lia.
Qed.

Lemma latest_named_elem (name : string) (rows : list PromptRow) (m : PromptRow) :
  latest_named name rows = Some m ->
  m ∈ rows /\ p_name m = name
  /\ forall r, r ∈ rows -> p_name r = name -> (version r <= version m)%Z.
Proof.
  unfold latest_named. intros H. apply max_version_row_elem in H as [Hin Hmax].
  apply list_elem_of_filter in Hin as [Hname Hin]. repeat split; [done..|].
  intros r Hr Hn. apply Hmax. by apply list_elem_of_filter.
Qed.


Lemma elem_of_ids (r : PromptRow) (rows : list PromptRow) :
  r ∈ rows -> p_id r ∈ map p_id rows.
Proof. intros H. apply list_elem_of_fmap. by exists r. Qed.

Lemma NoDup_snoc_ids {A : Type} (f : A -> string) (l : list A) (x : A) :
  NoDup (map f l) -> f x ∉ map f l -> NoDup (map f (l ++ [x])).
Proof.
  intros Hnd Hx. rewrite map_app. apply NoDup_app. split; [done|]. split.
  - intros y Hy Hy'. apply list_elem_of_singleton in Hy' as ->. done.
  - apply NoDup_singleton.
Qed.

Lemma NoDup_filter_ids {A : Type} (f : A -> string) (P : A -> Prop)
    `{!forall x, Decision (P x)} (l : list A) :
  NoDup (map f l) -> NoDup (map f (filter P l)).
Proof.
  induction l as [|x l IH]; [done|]. simpl. intros Hnd.
  apply NoDup_cons in Hnd as [Hx Hnd]. rewrite filter_cons.
  destruct (decide (P x)); [|auto]. simpl. apply NoDup_cons. split; [|auto].
  intros Hin. apply Hx. apply list_elem_of_fmap in Hin as (y & Hy & Hin).
  apply list_elem_of_filter in Hin as [_ Hin]. apply list_elem_of_fmap. by exists y.
Qed.

(** Adding a prompt that is based on a stored one keeps the store
    consistent. *)
Lemma consistent_add_prompt (db : Db) (row : PromptRow) :
  consistent db ->
  p_id row ∉ map p_id (prompts db) ->
  (forall b, base_prompt_id row = Some b -> b ∈ map p_id (prompts db)) ->
  (1 <= version row)%Z ->
  consistent {| prompts := prompts db ++ [row];
                test_results := test_results db;
                prompt_analytics := prompt_analytics db |}.
Proof.
  intros [H1 H2 H3 H4 H5 H6] Hfresh Hbase Hver. split; simpl.
  - by apply NoDup_snoc_ids.
  - done.
  - intros tr Htr. rewrite map_app. apply elem_of_app. left. auto.
  - intros r b Hr Hb. rewrite map_app. apply elem_of_app. left.
    apply elem_of_app in Hr as [Hr|Hr]; [eauto|].
    apply list_elem_of_singleton in Hr as ->. auto.
  - done.
  - intros r Hr. apply elem_of_app in Hr as [Hr|Hr]; [auto|].
    by apply list_elem_of_singleton in Hr as ->.
Qed.

Lemma createPrompt_consistent (prompt : PromptInput) (db : Db) :
  consistent db -> consistent (createPrompt prompt db).2.
Proof.
  intros Hc. unfold createPrompt. case_bool_decide as Hid; [done|]. simpl.
  apply consistent_add_prompt; simpl; [done | done | |].
  - intros b Hb. destruct (latest_named (in_name prompt) (prompts db)) as [m|] eqn:E;
      [|discriminate].
    injection Hb as <-. apply latest_named_elem in E as [Hin _]. by apply elem_of_ids.
  - destruct (latest_named (in_name prompt) (prompts db)) as [m|] eqn:E; [|lia].
    apply latest_named_elem in E as [Hin _].
    pose proof (versions_positive db Hc m Hin). lia.
Qed.

Lemma clonePrompt_consistent (newId originalId : string) (newName : option string)
    (db : Db) :
  consistent db -> consistent (clonePrompt newId originalId newName db).2.
Proof.
  intros Hc. unfold clonePrompt.
  destruct (filter (fun r => p_id r = originalId) (prompts db)) as [|row rest] eqn:E; [done|].
  case_bool_decide as Hid; [done|]. simpl.
  apply consistent_add_prompt; simpl; [done | done | | lia].
  intros b Hb. injection Hb as <-.
  assert (Hin : row ∈ filter (fun r => p_id r = originalId) (prompts db)).
  { rewrite E. by left. }
  apply list_elem_of_filter in Hin as [_ Hin]. by apply elem_of_ids.
Qed.

Lemma delete_test_results_consistent (id : string) (db : Db) :
  consistent db -> consistent (delete_test_results id db).
Proof.
  intros [H1 H2 H3 H4 H5 H6]. split; simpl; try done.
  - by apply NoDup_filter_ids.
  - intros tr Htr. apply list_elem_of_filter in Htr as [_ Htr]. auto.
Qed.

Lemma still_referenced_false (id : string) (db : Db) :
  still_referenced id db = false ->
  (forall r, r ∈ prompts db -> p_id r <> id -> base_prompt_id r <> Some id)
  /\ (forall tr, tr ∈ test_results db -> prompt_id tr <> id).
Proof.
  unfold still_referenced. intros H.
  apply orb_false_iff in H as [H _]. apply orb_false_iff in H as [Hp Ht].
  apply bool_decide_eq_false in Hp, Ht. split.
  - intros r Hr Hne Hb. apply Hp. apply Exists_exists. by exists r.
  - intros tr Htr Hid. apply Ht. apply Exists_exists. by exists tr.
Qed.

Lemma deletePrompt_consistent (id : string) (db : Db) :
  consistent db -> consistent (deletePrompt id db).2.
Proof.
  intros Hc. apply (delete_test_results_consistent id) in Hc.
  unfold deletePrompt, delete_prompt_row.
  set (db1 := delete_test_results id db) in *.
  destruct (bool_decide (id ∈ map p_id (prompts db1))) eqn:Ein; simpl.
  - destruct (still_referenced id db1) eqn:Eref; [done|]. simpl.
    apply still_referenced_false in Eref as [Hp Ht].
    destruct Hc as [H1 H2 H3 H4 H5 H6]. split; simpl; try done.
    + by apply NoDup_filter_ids.
    + intros tr Htr. specialize (H3 tr Htr).
      apply list_elem_of_fmap in H3 as (r & Hr & Hin).
      apply list_elem_of_fmap. exists r. split; [done|].
      apply list_elem_of_filter. split; [|done]. rewrite <- Hr. by apply Ht.
    + intros r b Hr Hb. apply list_elem_of_filter in Hr as [Hne Hr].
      specialize (H4 r b Hr Hb). apply list_elem_of_fmap in H4 as (r0 & -> & Hin).
      apply list_elem_of_fmap. exists r0. split; [done|].
      apply list_elem_of_filter. split; [|done].
      intros Heq. apply (Hp r Hr Hne). by rewrite Hb, Heq.
    + intros r Hr. apply list_elem_of_filter in Hr as [_ Hr]. auto.
  - apply bool_decide_eq_false in Ein.
    destruct Hc as [H1 H2 H3 H4 H5 H6]. split; simpl; try done.
    + by apply NoDup_filter_ids.
    + intros tr Htr. specialize (H3 tr Htr).
      apply list_elem_of_fmap in H3 as (r & Hr & Hin).
      apply list_elem_of_fmap. exists r. split; [done|].
      apply list_elem_of_filter. split; [|done]. intros Heq. apply Ein.
      rewrite <- Heq. by apply elem_of_ids.
    + intros r b Hr Hb. apply list_elem_of_filter in Hr as [Hne Hr].
      specialize (H4 r b Hr Hb). apply list_elem_of_fmap in H4 as (r0 & -> & Hin).
      apply list_elem_of_fmap. exists r0. split; [done|].
      apply list_elem_of_filter. split; [|done]. intros Heq. apply Ein.
      rewrite <- Heq. by apply elem_of_ids.
    + intros r Hr. apply list_elem_of_filter in Hr as [_ Hr]. auto.
Qed.

Lemma createTestResult_consistent (now : string) (testResult : TestResultInput)
    (db : Db) :
  consistent db -> consistent (createTestResult now testResult db).2.
Proof.
  intros Hc.
  destruct (createTestResult_cases now testResult db)
    as [[error ->]|(row & -> & Hid & Hfk & Hrid & Hpid & _)]; [done|].
  destruct Hc as [H1 H2 H3 H4 H5 H6]. split; simpl; try done.
  - apply NoDup_snoc_ids; [done | by rewrite Hrid].
  - intros tr Htr. apply elem_of_app in Htr as [Htr|Htr]; [auto|].
    apply list_elem_of_singleton in Htr as ->. by rewrite Hpid.
Qed.

End IntegrityFacts.

Lemma consistent_of_reachable (db : Db) : reachable db -> consistent db.
Proof.
  induction 1 as [|prompt db _ IH|newId originalId newName db _ IH|id db _ IH
                 |now testResult db _ IH].
  - split; simpl; try done; try constructor;
      intros; exfalso; eapply not_elem_of_nil; eauto.
  - by apply createPrompt_consistent.
  - by apply clonePrompt_consistent.
  - by apply deletePrompt_consistent.
  - by apply createTestResult_consistent.
Qed.

(** X13: in every state the store can reach, prompt ids and test-result ids
    are unique, every test result belongs to a stored prompt, every base
    prompt is stored, and versions are at least 1. *)
Theorem reachable_consistent (db : Db) : reachable db -> consistent db.
Proof. apply consistent_of_reachable. Qed.

Lemma reachable_consistent_witness : consistent sample_db.
Proof. apply reachable_consistent, sample_db_reachable. Defined.

Section VersionInvariant.




End VersionInvariant.






(** X15: [clonePrompt] of database.js stores the copy as version 1 based on
    the original, under the new name (or the name of the original followed
    by [ (Copy)]) and without tags; from then on the original cannot be
    deleted: [deletePrompt] fails with the foreign-key error. *)
Theorem clonePrompt_pins_original (newId originalId : string) (newName : option string)
    (db db' : Db) (cloned : PromptRow) :
  clonePrompt newId originalId newName db = (inr cloned, db') ->
  exists original,
    getPrompt originalId db = Some original
    /\ prompts db' = prompts db ++ [cloned]
    /\ p_id cloned = newId /\ version cloned = 1%Z
    /\ base_prompt_id cloned = Some originalId
    /\ p_name cloned = or_string newName (p_name original +:+ " (Copy)")
    /\ p_questions cloned = p_questions original
    /\ p_answers cloned = p_answers original
    /\ generated_prompt cloned = generated_prompt original
    /\ p_tags cloned = []
    /\ (deletePrompt originalId db').1 = inl FOREIGN_KEY_failed.
Proof.
  unfold clonePrompt, getPrompt.
  destruct (filter (fun r => p_id r = originalId) (prompts db)) as [|row rest] eqn:E;
    [discriminate|].
  case_bool_decide as Hid; [discriminate|]. intros H. injection H as <- <-.
  assert (Hrow : row ∈ prompts db /\ p_id row = originalId).
  { assert (Hin : row ∈ filter (fun r => p_id r = originalId) (prompts db)).
    { rewrite E. by left. }
    apply list_elem_of_filter in Hin as [? ?]. done. }
  destruct Hrow as [Hin Hrid].
  exists row. simpl. rewrite Hrid. repeat split.
  unfold deletePrompt, delete_prompt_row. simpl.
  rewrite bool_decide_eq_true_2.
  2:{ rewrite map_app. apply elem_of_app. left. rewrite <- Hrid. by apply elem_of_ids. }
  unfold still_referenced. simpl. rewrite bool_decide_eq_true_2; [reflexivity|].
  apply Exists_app. right. apply Exists_cons. left. simpl. split; [|done].
  intros Heq. apply Hid. rewrite Heq, <- Hrid. by apply elem_of_ids.
Qed.

Lemma clonePrompt_pins_original_witness :
  (deletePrompt "p2" sample_db).1 = inr tt
  /\ (deletePrompt "p2" (clonePrompt "p9" "p2" None sample_db).2).1
     = inl FOREIGN_KEY_failed.
Proof.
  split; [vm_compute; reflexivity|].
  destruct (clonePrompt "p9" "p2" None sample_db) as [[error|cloned] db'] eqn:E.
  - vm_compute in E. discriminate.
  - destruct (clonePrompt_pins_original "p9" "p2" None sample_db db' cloned E)
      as (original & _ & _ & _ & _ & _ & _ & _ & _ & _ & _ & H).
    exact H.
Defined.

(** X16: once [createPrompt] has stored a new version on top of a prompt,
    that base prompt cannot be deleted any more: [deletePrompt] fails with
    the foreign-key error and the endpoint answers 400. *)
Theorem createPrompt_pins_base (prompt : PromptInput) (db db' : Db)
    (created : CreatedPrompt) (base : string) :
  createPrompt prompt db = (inr created, db') ->
  c_basePromptId created = Some base ->
  (deletePrompt base db').1 = inl FOREIGN_KEY_failed
  /\ (delete_prompt_endpoint base db').1 = dependent_data_response.
Proof.
  unfold createPrompt. case_bool_decide as Hid; [discriminate|].
  intros H. injection H as <- <-. simpl. intros Hb.
  destruct (latest_named (in_name prompt) (prompts db)) as [m|] eqn:E; [|discriminate].
  injection Hb as <-. apply latest_named_elem in E as (Hin & _ & _).
  assert (Hdel : forall db1 : Db,
            prompts db1 = prompts db ++
              [{| p_id := in_id prompt; p_name := in_name prompt;
                  base_prompt_id := Some (p_id m); version := (version m + 1)%Z;
                  p_questions := in_questions prompt; p_answers := in_answers prompt;
                  generated_prompt := in_generatedPrompt prompt;
                  p_tags := default [] (in_tags prompt) |}] ->
            (deletePrompt (p_id m) db1).1 = inl FOREIGN_KEY_failed).
  { intros db1 Hp. unfold deletePrompt, delete_prompt_row. simpl. rewrite Hp.
    rewrite bool_decide_eq_true_2.
    2:{ rewrite map_app. apply elem_of_app. left. by apply elem_of_ids. }
    unfold still_referenced. simpl. rewrite Hp.
    rewrite bool_decide_eq_true_2; [reflexivity|].
    apply Exists_app. right. apply Exists_cons. left. simpl. split; [|done].
    intros Heq. apply Hid. rewrite Heq. by apply elem_of_ids. }
  match goal with |- (deletePrompt _ ?d).1 = _ /\ _ => specialize (Hdel d eq_refl) end.
  split; [exact Hdel|].
  unfold delete_prompt_endpoint.
  destruct (deletePrompt (p_id m) _) as [[error|[]] db2]; simpl in Hdel; [|discriminate].
  injection Hdel as ->. reflexivity.
Qed.

Lemma createPrompt_pins_base_witness :
  (deletePrompt "p4" sample_db).1 = inr tt
  /\ (deletePrompt "p4" (createPrompt (sample_input "p5" "A") sample_db).2).1
     = inl FOREIGN_KEY_failed.
Proof.
  split; [vm_compute; reflexivity|].
  destruct (createPrompt (sample_input "p5" "A") sample_db) as [[error|created] db'] eqn:E.
  - vm_compute in E. discriminate.
  - apply (createPrompt_pins_base (sample_input "p5" "A") sample_db db' created "p4" E).
    vm_compute in E. injection E as <- _. reflexivity.
Defined.

(** X17: deleting an id that no prompt has is not an error: in a reachable
    store [deletePrompt] succeeds, the endpoint answers 200, and the store
    is left exactly as it was. *)
Theorem deletePrompt_missing (id : string) (db : Db) :
  reachable db -> getPrompt id db = None ->
  deletePrompt id db = (inr tt, db)
  /\ delete_prompt_endpoint id db = ({| code := 200; error_text := None |}, db).
Proof.
  intros Hreach Hnone. apply consistent_of_reachable in Hreach as [_ _ H3 _ _ _].
  apply getPrompt_None in Hnone.
  assert (E : deletePrompt id db = (inr tt, db)).
  { unfold deletePrompt, delete_prompt_row. simpl.
    rewrite bool_decide_eq_false_2 by done. simpl. f_equal.
    destruct db as [ps trs pa]. simpl in *. f_equal.
    - clear -Hnone. induction ps as [|r ps IH]; [done|].
      simpl in Hnone. apply not_elem_of_cons in Hnone as [Hr Hps].
      rewrite filter_cons_True by congruence. by rewrite IH.
    - assert (Hall : forall tr, tr ∈ trs -> prompt_id tr <> id).
      { intros tr Htr Heq. apply Hnone. rewrite <- Heq. by apply H3. }
      clear -Hall. induction trs as [|tr trs IH]; [done|].
      rewrite filter_cons_True by (apply Hall; by left).
      rewrite IH; [done|]. intros x Hx. apply Hall. by right. }
  split; [exact E|]. unfold delete_prompt_endpoint. by rewrite E.
Qed.

Lemma deletePrompt_missing_witness :
  deletePrompt "p9" sample_db = (inr tt, sample_db)
  /\ delete_prompt_endpoint "p9" sample_db
     = ({| code := 200; error_text := None |}, sample_db).
Proof.
  apply deletePrompt_missing; [apply sample_db_reachable | vm_compute; reflexivity].
Defined.

(** ** Reading back what was written *)

Section ReadBack.

Lemma getPrompt_app_other (id : string) (db : Db) (row : PromptRow) (trs : list TestResultRow)
    (pa : list string) :
  p_id row <> id ->
  getPrompt id {| prompts := prompts db ++ [row]; test_results := trs;
                  prompt_analytics := pa |}
  = getPrompt id db.
Proof.
  intros Hne. unfold getPrompt. simpl.
  by rewrite filter_app, filter_cons_False, filter_nil, app_nil_r.
Qed.

Lemma getPrompt_app_new (db : Db) (row : PromptRow) (trs : list TestResultRow)
    (pa : list string) :
  p_id row ∉ map p_id (prompts db) ->
  getPrompt (p_id row) {| prompts := prompts db ++ [row]; test_results := trs;
                          prompt_analytics := pa |}
  = Some row.
Proof.
  intros Hfresh. unfold getPrompt. simpl.
  rewrite filter_app, filter_cons_True, filter_nil by done.
  assert (E : filter (fun r => p_id r = p_id row) (prompts db) = []).
  { destruct (filter _ (prompts db)) as [|r rest] eqn:Ef; [done|]. exfalso.
    assert (Hin : r ∈ filter (fun r => p_id r = p_id row) (prompts db)).
    { rewrite Ef. by left. }
    apply list_elem_of_filter in Hin as [Hid Hin]. apply Hfresh.
    rewrite <- Hid. by apply elem_of_ids. }
  by rewrite E.
Qed.

End ReadBack.

(** X18: [createPrompt] under an id that is already stored fails and changes
    nothing; under a fresh id it succeeds, [getPrompt] then returns the
    prompt with the name, questions, answers, text and tags it was given
    (no tags given: the empty list) and the version and base it reported,
    and every other id reads as before. *)
Theorem createPrompt_getPrompt (prompt : PromptInput) (db : Db) :
  (in_id prompt ∈ map p_id (prompts db) ->
   createPrompt prompt db = (inl (UNIQUE_failed "prompts.id"), db))
  /\ (in_id prompt ∉ map p_id (prompts db) ->
      exists created db' row,
        createPrompt prompt db = (inr created, db')
        /\ getPrompt (in_id prompt) db' = Some row
        /\ p_name row = in_name prompt
        /\ p_questions row = in_questions prompt
        /\ p_answers row = in_answers prompt
        /\ generated_prompt row = in_generatedPrompt prompt
        /\ p_tags row = default [] (in_tags prompt)
        /\ version row = c_version created
        /\ base_prompt_id row = c_basePromptId created
        /\ (forall id, id <> in_id prompt -> getPrompt id db' = getPrompt id db)
        /\ test_results db' = test_results db).
Proof.
  split; intros Hid; unfold createPrompt.
  - by rewrite bool_decide_eq_true_2.
  - rewrite bool_decide_eq_false_2 by done.
    eexists _, _, _. split; [reflexivity|]. split.
    + apply (getPrompt_app_new db {| p_id := in_id prompt |}). exact Hid.
    + simpl. repeat split. intros id Hne. apply getPrompt_app_other. simpl. congruence.
Qed.

Lemma createPrompt_getPrompt_witness :
  exists created db' row,
    createPrompt (sample_input "p5" "A") sample_db = (inr created, db')
    /\ getPrompt "p5" db' = Some row
    /\ version row = 4%Z /\ base_prompt_id row = Some "p4".
Proof.
  destruct (proj2 (createPrompt_getPrompt (sample_input "p5" "A") sample_db))
    as (created & db' & row & E & Hg & _ & _ & _ & _ & _ & Hv & Hb & _).
  - apply (bool_decide_unpack _). vm_compute. exact I.
  - exists created, db', row. split; [exact E|]. split; [exact Hg|].
    rewrite Hv, Hb.
    assert (E' : (createPrompt (sample_input "p5" "A") sample_db).1 = inr created)
      by (by rewrite E).
    vm_compute in E'. injection E' as <-. split; reflexivity.
Defined.

(** X19: the clone endpoint answers 404 and changes nothing when the prompt
    does not exist.  Otherwise, under a fresh uuid, it stores a copy of the
    questions, answers and text, never of the tags; the copy is numbered by
    its name like any created prompt, so under a name that no prompt has it
    is a version 1 without base prompt: it keeps no link to its original. *)
Theorem clone_endpoint_copy (uuid id : string) (name : option string) (db : Db) :
  (getPrompt id db = None ->
   clone_endpoint uuid id name db = (Error 404 "Prompt not found" None, db))
  /\ (forall original,
        getPrompt id db = Some original ->
        uuid ∉ map p_id (prompts db) ->
        exists created db',
          clone_endpoint uuid id name db = (Json created, db')
          /\ c_id created = uuid
          /\ c_name created = or_string name (p_name original +:+ " (Copy)")
          /\ c_questions created = p_questions original
          /\ c_answers created = p_answers original
          /\ c_generatedPrompt created = generated_prompt original
          /\ c_tags created = []
          /\ ((forall r, r ∈ prompts db -> p_name r <> c_name created) ->
              c_version created = 1%Z /\ c_basePromptId created = None)).
Proof.
  split.
  - intros H. unfold clone_endpoint. by rewrite H.
  - intros original Hg Hfresh. unfold clone_endpoint. rewrite Hg.
    unfold createPrompt. simpl. rewrite bool_decide_eq_false_2 by done.
    eexists _, _. split; [reflexivity|]. simpl. repeat split.
    + destruct (latest_named _ (prompts db)) as [m|] eqn:E; [|done].
      apply latest_named_elem in E as (Hin & Hn & _). exfalso. by apply (H m Hin).
    + destruct (latest_named _ (prompts db)) as [m|] eqn:E; [|done].
      apply latest_named_elem in E as (Hin & Hn & _). exfalso. by apply (H m Hin).
Qed.

Lemma clone_endpoint_witness :
  exists created db',
    clone_endpoint "p9" "p1" None sample_db = (Json created, db')
    /\ c_name created = "A (Copy)"
    /\ c_version created = 1%Z /\ c_basePromptId created = None.
Proof.
  edestruct (proj2 (clone_endpoint_copy "p9" "p1" None sample_db))
    as (created & db' & E & _ & Hn & _ & _ & _ & _ & Hnew).
  - vm_compute. reflexivity.
  - apply (bool_decide_unpack _). vm_compute. exact I.
  - exists created, db'. split; [exact E|]. split; [rewrite Hn; vm_compute; reflexivity|].
    apply Hnew. rewrite Hn. apply Forall_forall.
    apply (bool_decide_unpack _). vm_compute. exact I.
Defined.

(** ** Test results of a prompt *)

Section ResultFacts.

Lemma filter_filter_ne {A : Type} (f : A -> string) (id : string) (l : list A) :
  filter (fun x => f x = id) (filter (fun x => f x <> id) l) = [].
Proof.
  induction l as [|x l IH]; [done|]. rewrite (filter_cons (fun x => f x <> id)).
  destruct (decide (f x <> id)); [|done].
  by rewrite filter_cons_False.
Qed.

Lemma filter_filter_other {A : Type} (f : A -> string) (id id' : string) (l : list A) :
  id' <> id ->
  filter (fun x => f x = id') (filter (fun x => f x <> id) l)
  = filter (fun x => f x = id') l.
Proof.
  intros Hne. induction l as [|x l IH]; [done|].
  rewrite (filter_cons (fun x => f x <> id)).
  destruct (decide (f x <> id)) as [Hx|Hx].
  - rewrite !filter_cons, IH. done.
  - rewrite IH, (filter_cons_False _ x); [done|].
    intros Heq. apply Hx. congruence.
Qed.

Lemma deletePrompt_test_results (id : string) (db : Db) :
  test_results (deletePrompt id db).2
  = filter (fun tr => prompt_id tr <> id) (test_results db).
Proof. by destruct (deletePrompt_cases id db) as [E|E]; rewrite E. Qed.

End ResultFacts.

(** X20: after [deletePrompt], whether it succeeded or failed, the prompt
    has no test results left, and the test results of every other prompt
    read as before. *)
Theorem deletePrompt_clears_results (id : string) (db : Db) :
  getTestResultsForPrompt id (deletePrompt id db).2 = []
  /\ (forall other, other <> id ->
        getTestResultsForPrompt other (deletePrompt id db).2
        = getTestResultsForPrompt other db).
Proof.
  unfold getTestResultsForPrompt. rewrite deletePrompt_test_results. split.
  - by rewrite filter_filter_ne.
  - intros other Hne. by rewrite filter_filter_other.
Qed.

(** X21: when [createTestResult] succeeds, the results of the prompt are the
    earlier ones and the new one, in some order, and the new row holds what
    was given: insights (none given: the empty list), confidence, version
    (none given: 1), time stamp (none given: the current time), and
    [success = 1]; when it fails nothing is stored. *)
Theorem createTestResult_read_back (now : string) (testResult : TestResultInput)
    (db : Db) :
  match createTestResult now testResult db with
  | (inl _, db') => db' = db
  | (inr _, db') =>
      exists row,
        getTestResultsForPrompt (t_promptId testResult) db'
        ≡ₚ row :: getTestResultsForPrompt (t_promptId testResult) db
        /\ tr_id row = t_id testResult
        /\ result_insights row = default [] (r_insights (t_result testResult))
        /\ confidence row = r_confidence (t_result testResult)
        /\ prompt_version row = default 1%Z (t_promptVersion testResult)
        /\ timestamp row = or_string (t_timestamp testResult) now
        /\ success row = 1%Z
        /\ (forall other, other <> t_promptId testResult ->
              getTestResultsForPrompt other db' = getTestResultsForPrompt other db)
  end.
Proof.
  destruct (createTestResult_cases now testResult db)
    as [[error ->]|(row & -> & _ & _ & H1 & H2 & _ & H4 & H5 & H6 & _ & _ & H9 & H10 & _)];
    [done|].
  exists row. unfold getTestResultsForPrompt. simpl. split.
  - rewrite !merge_sort_Permutation, filter_app, filter_cons_True, filter_nil by done.
    by rewrite Permutation_app_comm.
  - repeat split; try done. intros other Hne.
    rewrite filter_app, filter_cons_False, filter_nil, app_nil_r by congruence. done.
Qed.

(** ** Analytics count every test result once *)

Section CountFacts.

Context {A K : Type} `{!EqDecision K}.

Lemma sum_indicator (x : K) (ks : list K) :
  NoDup ks -> x ∈ ks ->
  sum_list_with (fun k => if decide (x = k) then 1 else 0) ks = 1.
Proof.
  induction 1 as [|k ks Hk Hnd IH]; intros Hx; [by apply not_elem_of_nil in Hx|].
  simpl. apply elem_of_cons in Hx as [->|Hx].
  - rewrite decide_True by done.
    assert (E : sum_list_with (fun k0 => if decide (k = k0) then 1 else 0) ks = 0).
    { clear -Hk. induction ks as [|k' ks IH]; [done|]. simpl.
      apply not_elem_of_cons in Hk as [Hne Hk]. rewrite decide_False by done.
      by rewrite IH. }
    by rewrite E.
  - rewrite decide_False by (intros ->; done). by rewrite IH.
Qed.

(** Rows grouped by a key: the sizes of the groups add up to the number of
    rows. *)
Lemma sum_groups (key : A -> K) (ks : list K) (rows : list A) :
  NoDup ks -> (forall r, r ∈ rows -> key r ∈ ks) ->
  sum_list_with (fun k => length (filter (fun r => key r = k) rows)) ks = length rows.
Proof.
  intros Hnd. induction rows as [|r rows IH]; intros Hall.
  - simpl. clear. induction ks as [|k ks IHk]; [done|]. simpl. exact IHk.
  - assert (Hsplit :
      sum_list_with (fun k => length (filter (fun r => key r = k) (r :: rows))) ks
      = sum_list_with (fun k => if decide (key r = k) then 1 else 0) ks
        + sum_list_with (fun k => length (filter (fun r => key r = k) rows)) ks).
    { clear. induction ks as [|k ks IHk]; [done|]. simpl. rewrite IHk.
      rewrite filter_cons. destruct (decide (key r = k)); simpl; lia. }
    rewrite Hsplit, IH by (intros x Hx; apply Hall; by right).
    rewrite (sum_indicator (key r) ks Hnd) by (apply Hall; by left). done.
Qed.

End CountFacts.

Section TotalsFacts.

Lemma sum_list_with_map {B C : Type} (g : B -> C) (f : C -> nat) (l : list B) :
  sum_list_with f (map g l) = sum_list_with (fun x => f (g x)) l.
Proof. induction l as [|x l IH]; [done|]. simpl. by rewrite IH. Qed.

End TotalsFacts.

(** X22: in a reachable store the overall analytics has one row per prompt,
    and the test counts of its rows add up to the number of stored test
    results: every test result is counted once. *)
Theorem getOverallAnalytics_totals (db : Db) :
  reachable db ->
  map o_prompt_id (getOverallAnalytics db) ≡ₚ map p_id (prompts db)
  /\ sum_list_with o_total_tests (getOverallAnalytics db) = length (test_results db).
Proof.
  intros Hreach. apply consistent_of_reachable in Hreach as [H1 _ H3 _ _ _].
  unfold getOverallAnalytics. split.
  - rewrite merge_sort_Permutation. by rewrite <- list_fmap_compose.
  - rewrite merge_sort_Permutation, sum_list_with_map. simpl.
    rewrite <- (sum_groups prompt_id (map p_id (prompts db)) (test_results db) H1 H3).
    by rewrite sum_list_with_map.
Qed.

Lemma getOverallAnalytics_totals_witness :
  map o_prompt_id (getOverallAnalytics sample_db) ≡ₚ map p_id (prompts sample_db)
  /\ sum_list_with o_total_tests (getOverallAnalytics sample_db)
     = length (test_results sample_db).
Proof. apply getOverallAnalytics_totals, sample_db_reachable. Defined.

(** X23: the daily analytics of a prompt has one row per date, and the test
    counts of its rows add up to the number of test results of the prompt
    that the date bounds select; no row counts zero tests. *)
Theorem getPromptAnalytics_totals (DATE : string -> option string)
    (promptId : string) (startDate endDate : option string) (db : Db) :
  NoDup (map d_date (getPromptAnalytics DATE promptId startDate endDate db))
  /\ sum_list_with d_total_tests (getPromptAnalytics DATE promptId startDate endDate db)
     = length (filter (fun tr => in_range DATE promptId startDate endDate tr = true)
                      (test_results db))
  /\ Forall (fun row => 0 < d_total_tests row)
            (getPromptAnalytics DATE promptId startDate endDate db).
Proof.
  unfold getPromptAnalytics.
  set (rows := filter _ (test_results db)).
  set (dates := remove_dups (map (fun tr => DATE (timestamp tr)) rows)).
  assert (Hnd : NoDup dates) by apply NoDup_remove_dups.
  split; [|split].
  - assert (E : forall ds, map d_date (map (daily_stats DATE rows) ds) = ds).
    { induction ds as [|d ds IH]; [done|]. simpl. by rewrite IH. }
    rewrite E. by rewrite merge_sort_Permutation.
  - rewrite sum_list_with_map. simpl.
    rewrite merge_sort_Permutation.
    apply (sum_groups (fun tr => DATE (timestamp tr)) dates rows Hnd).
    intros r Hr. unfold dates. rewrite elem_of_remove_dups.
    apply list_elem_of_fmap. by exists r.
  - apply Forall_forall. intros row Hrow.
    apply list_elem_of_fmap in Hrow as (date & -> & Hdate).
    rewrite merge_sort_Permutation in Hdate. unfold dates in Hdate.
    rewrite elem_of_remove_dups in Hdate.
    apply list_elem_of_fmap in Hdate as (tr & Hd & Htr). simpl.
    assert (Hin : tr ∈ filter (fun tr => DATE (timestamp tr) = date) rows).
    { apply list_elem_of_filter. by split. }
    destruct (filter _ rows); [by apply not_elem_of_nil in Hin | simpl; lia].
Qed.

(** ** Listing the versions of a prompt *)

Section VersionListFacts.

#[global] Instance version_ge_total : Total version_ge.
Proof. intros a b. unfold version_ge. lia. Qed.

#[global] Instance version_ge_trans : Transitive version_ge.
Proof. intros a b c. unfold version_ge. lia. Qed.



End VersionListFacts.



(** ** The questions table *)

Section QuestionFacts.

Lemma getAllQuestions_elem (q : ListedQuestion) (table : list QuestionRow) :
  q ∈ getAllQuestions table <-> exists row, row ∈ table /\ q = listed row.
Proof.
  unfold getAllQuestions. rewrite list_elem_of_In, in_map_iff. split.
  - intros (row & <- & Hin). exists row. split; [|done].
    apply list_elem_of_In in Hin. by rewrite merge_sort_Permutation in Hin.
  - intros (row & Hin & ->). exists row. split; [done|].
    apply list_elem_of_In. by rewrite merge_sort_Permutation.
Qed.

Lemma assign_id (row : QuestionRow) (u : Update) : qr_id (assign row u) = qr_id row.
Proof. by destruct u. Qed.

Lemma foldl_assign_id (updates : list Update) (row : QuestionRow) :
  qr_id (foldl assign row updates) = qr_id row.
Proof.
  revert row. induction updates as [|u updates IH]; intros row; [done|].
  simpl. by rewrite IH, assign_id.
Qed.

Lemma assign_shows (row : QuestionRow) (u : Update) : shows u (listed (assign row u)).
Proof. destruct u as [v|v|[]|[]|v|v]; done. Qed.

Lemma assign_keeps (row : QuestionRow) (u x : Update) :
  column x <> column u -> shows u (listed row) -> shows u (listed (assign row x)).
Proof. destruct u, x; simpl; intros Hne Hs; done. Qed.

Lemma foldl_assign_shows (updates : list Update) (u : Update) (row : QuestionRow) :
  NoDup (map column updates) -> u ∈ updates ->
  shows u (listed (foldl assign row updates)).
Proof.
  induction updates as [|x updates IH] using rev_ind; intros Hnd Hin.
  - by apply elem_of_nil in Hin.
  - rewrite foldl_app. simpl.
    rewrite map_app in Hnd. apply NoDup_app in Hnd as (Hl & Hx & _).
    apply elem_of_app in Hin as [Hin|Hin].
    + apply assign_keeps; [|by apply IH].
      intros Heq. apply (Hx (column u)).
      * apply list_elem_of_In, in_map, list_elem_of_In, Hin.
      * rewrite <- Heq. simpl. apply list_elem_of_here.
    + apply list_elem_of_singleton in Hin as ->. apply assign_shows.
Qed.

Lemma update_rows_unknown (id : string) (f : QuestionRow -> QuestionRow)
    (table : list QuestionRow) :
  id ∉ map qr_id table ->
  map (fun row => if decide (qr_id row = id) then f row else row) table = table.
Proof.
  induction table as [|row table IH]; intros Hid; [done|].
  simpl in *. apply not_elem_of_cons in Hid as [Hne Hid].
  rewrite decide_False by done. by rewrite IH.
Qed.

Lemma deleteQuestion_unknown (id : string) (table : list QuestionRow) :
  id ∉ map qr_id table -> deleteQuestion id table = table.
Proof.
  unfold deleteQuestion.
  induction table as [|row table IH]; intros Hid; [done|].
  simpl in *. apply not_elem_of_cons in Hid as [Hne Hid].
  rewrite filter_cons_True by done. by rewrite IH.
Qed.

End QuestionFacts.

(** X25: POST /api/questions reads only text, type, required and options of the
    body.  For a fresh identifier and a body with a text, the question is
    appended with hardFilter 0 and no tags whatever the body says of them,
    the reply carries [required] as [true] or as the number 0, and the
    listing shows the question with hardFilter false and the options of the
    body (none when absent); a body without text is answered 500 and
    nothing is stored. *)
Theorem create_question_endpoint_defaults (uuid now : string) (body : QuestionBody)
    (table : list QuestionRow) :
  uuid ∉ map qr_id table ->
  match qb_text body with
  | None =>
      create_question_endpoint uuid now body table
      = (Error 500 "Failed to create question" None, table)
  | Some text =>
      exists q row,
        create_question_endpoint uuid now body table = (Json q, table ++ [row])
        /\ cq_id q = uuid /\ cq_text q = text
        /\ cq_required q = or_zero (qb_required body)
        /\ cq_hardFilter q = JsZero /\ cq_tags q = []
        /\ qr_id row = uuid /\ qr_hardFilter row = 0%Z /\ qr_tags row = []
        /\ qr_required row = bind_flag (or_zero (qb_required body))
        /\ listed row ∈ getAllQuestions (table ++ [row])
        /\ lq_hardFilter (listed row) = false
        /\ lq_options (listed row) = default [] (qb_options body)
  end.
Proof.
  intros Hid. unfold create_question_endpoint, createQuestion. simpl.
  destruct (qb_text body) as [text|]; [|done].
  rewrite bool_decide_eq_false_2 by done.
  eexists _, _. split; [reflexivity|]. simpl.
  repeat split; try done.
  - by destruct (qb_required body) as [[]|].
  - by destruct (qb_required body) as [[]|].
  - apply getAllQuestions_elem. eexists. split; [|reflexivity].
    apply elem_of_app. right. apply list_elem_of_here.
Qed.

Lemma create_question_endpoint_witness :
  exists q row,
    create_question_endpoint "q9" "2024-03-01 10:00:00"
      {| qb_text := Some "Budget"; qb_type := None; qb_required := Some false;
         qb_options := None; qb_hardFilter := Some true; qb_tags := Some ["b2b"] |} []
    = (Json q, [row])
    /\ cq_required q = JsZero /\ qr_hardFilter row = 0%Z /\ qr_tags row = [].
Proof.
  destruct (create_question_endpoint_defaults "q9" "2024-03-01 10:00:00"
    {| qb_text := Some "Budget"; qb_type := None; qb_required := Some false;
       qb_options := None; qb_hardFilter := Some true; qb_tags := Some ["b2b"] |} [])
    as (q & row & Heq & _ & _ & Hreq & _ & _ & _ & Hhard & Htags & _).
  - simpl. apply not_elem_of_nil.
  - exists q, row. simpl in *. repeat split; assumption.
Defined.

(** X26: PUT /api/questions/:id with an empty object is answered 500 and changes
    nothing (the SET list of the statement is empty).  With at least one
    property, for an identifier that no question has, the reply is the
    success echo [{id, ...updates}] although no row is changed; DELETE for
    such an identifier answers success and changes nothing as well. *)
Theorem question_endpoints_unknown_id (id : string) (table : list QuestionRow) :
  id ∉ map qr_id table ->
  update_question_endpoint id [] table
  = (Error 500 "Failed to update question" None, table)
  /\ (forall u updates,
        update_question_endpoint id (u :: updates) table
        = (Json (id, u :: updates), table))
  /\ delete_question_endpoint id table = (Json true, table).
Proof.
  intros Hid. split; [done|]. split.
  - intros u updates. unfold update_question_endpoint, updateQuestion.
    by rewrite update_rows_unknown.
  - unfold delete_question_endpoint. by rewrite deleteQuestion_unknown.
Qed.

Lemma question_endpoints_unknown_id_witness :
  update_question_endpoint "q7" [SetText "Budget"] []
  = (Json ("q7", [SetText "Budget"]), [])
  /\ delete_question_endpoint "q7" [] = (Json true, []).
Proof.
  destruct (question_endpoints_unknown_id "q7" []) as (_ & Hupd & Hdel).
  - apply not_elem_of_nil.
  - split; [apply Hupd | apply Hdel].
Defined.

(** X27: after [updateQuestion] with an object of distinct keys, the listing
    shows, for every question of that identifier and every property sent,
    the value sent as the listing decodes it: a flag sent for hardFilter
    comes back as that boolean, one sent for required as 1 or 0, options
    and tags sent as null come back as the empty list.  Questions of
    another identifier are listed as before. *)
Theorem updateQuestion_listed (id : string) (updates : list Update)
    (table : list QuestionRow) (q : ListedQuestion) :
  updates <> [] ->
  NoDup (map column updates) ->
  q ∈ getAllQuestions (updateQuestion id updates table).2 ->
  (lq_id q = id -> forall u, u ∈ updates -> shows u q)
  /\ (lq_id q <> id -> q ∈ getAllQuestions table).
Proof.
  intros Hne Hnd Hq.
  assert (Htable : (updateQuestion id updates table).2
    = map (fun row => if decide (qr_id row = id)
                      then foldl assign row updates else row) table).
  { unfold updateQuestion. by destruct updates. }
  rewrite Htable in Hq. apply getAllQuestions_elem in Hq as (row' & Hin & ->).
  apply list_elem_of_In, in_map_iff in Hin as (row & <- & Hin).
  apply list_elem_of_In in Hin.
  destruct (decide (qr_id row = id)) as [Heq|Hneq]; split.
  - intros _ u Hu. by apply foldl_assign_shows.
  - intros Hid. simpl in Hid. by rewrite foldl_assign_id in Hid.
  - intros Hid. done.
  - intros _. apply getAllQuestions_elem. by exists row.
Qed.

Lemma updateQuestion_listed_witness :
  shows (SetHardFilter true) (listed (assign (assign budget_row (SetHardFilter true)) (SetOptions None)))
  /\ shows (SetOptions None) (listed (assign (assign budget_row (SetHardFilter true)) (SetOptions None))).
Proof.
  destruct (updateQuestion_listed "q9" [SetHardFilter true; SetOptions None]
              [budget_row]
              (listed (assign (assign budget_row (SetHardFilter true)) (SetOptions None))))
    as [Hshow _].
  - done.
  - simpl. repeat constructor; set_solver.
  - vm_compute. apply list_elem_of_here.
  - split; apply (Hshow eq_refl); set_solver.
Defined.

(** X28: after [deleteQuestion] the listing holds no question of that identifier
    and every other question as before. *)
Theorem deleteQuestion_listed (id : string) (table : list QuestionRow)
    (q : ListedQuestion) :
  q ∈ getAllQuestions (deleteQuestion id table)
  <-> q ∈ getAllQuestions table /\ lq_id q <> id.
Proof.
  rewrite !getAllQuestions_elem. unfold deleteQuestion. split.
  - intros (row & Hin & ->). apply list_elem_of_filter in Hin as [Hne Hin].
    split; [by exists row | done].
  - intros [(row & Hin & ->) Hne]. exists row. split; [|done].
    apply list_elem_of_filter. done.
Qed.
